(** * funpay_scrapper/lots.py: the [Lots] class, embedded and verified

    The module fetches one listing page over HTTP, parses it with
    BeautifulSoup and extracts a filtered list of lot records.  The
    embedding follows the Python source method by method:

    - Python [str] values are lists of Unicode code points;
    - exceptions and the lines written by [print] are threaded through a
      small monad [M];
    - the object [self] is a record passed explicitly, and a method that
      assigns to an attribute returns the updated record;
    - the two library entry points that talk to the outside world,
      [requests.get] and the [BeautifulSoup] constructor, are Section
      variables: every result holds for whatever they return or raise;
    - the DOM search methods ([find], [find_all], [get], [.text]) are
      modelled on the parsed tree. *)

From Stdlib Require Import ZArith NArith List Bool Ascii String DecimalString Lia.
From Stdlib Require DecimalPos DecimalZ DecimalFacts.
From stdpp Require Import base option list gmap.

Local Open Scope Z_scope.

(* ===================================================================== *)
(** ** Python strings *)
(* ===================================================================== *)

(** A [str] is a sequence of code points. *)
Abbreviation char := N (only parsing).
Abbreviation str := (list N) (only parsing).

(** A source literal, written in ASCII in the Python file. *)
Definition lit (s : string) : str :=
  List.map N_of_ascii (list_ascii_of_string s).

Definition char_eqb (a b : char) : bool := N.eqb a b.

Fixpoint str_eqb (a b : str) : bool :=
  match a, b with
  | [], [] => true
  | x :: a', y :: b' => char_eqb x y && str_eqb a' b'
  | _, _ => false
  end.

(** The decimal text of an [int]: what [str(n)] returns when it
    returns. *)
Definition str_of_int (n : Z) : str :=
  lit (NilZero.string_of_int (Z.to_int n)).

(** CPython refuses to convert an [int] to text when the text is longer
    than 640 characters and has more digits than
    [sys.get_int_max_str_digits()]; the limit is 4300 by default and 0
    switches it off. *)
Definition int_str_too_long (max_str_digits n : Z) : bool :=
  (0 <? max_str_digits) &&
  (640 <? Z.of_nat (length (str_of_int n))) &&
  (max_str_digits <? Z.of_nat (length (str_of_int (Z.abs n)))).

(** Truth value of a [str]: the empty string is false. *)
Definition truthy (s : str) : bool :=
  match s with [] => false | _ :: _ => true end.

(** [a or b] on strings. *)
Definition py_or (a b : str) : str := if truthy a then a else b.

(** [s.startswith(p)] and [sub in s]. *)
Fixpoint startswith (p s : str) : bool :=
  match p, s with
  | [], _ => true
  | _ :: _, [] => false
  | a :: p', b :: s' => char_eqb a b && startswith p' s'
  end.

Fixpoint contains (sub s : str) : bool :=
  startswith sub s ||
  match s with
  | [] => false
  | _ :: s' => contains sub s'
  end.

(** [sep.join(parts)]. *)
Fixpoint join (sep : str) (parts : list str) : str :=
  match parts with
  | [] => []
  | [p] => p
  | p :: rest => p ++ sep ++ join sep rest
  end.

(** [Py_UNICODE_ISSPACE]: the test behind both the [\s] class of [re] on
    [str] patterns and [str.strip()]. *)
Definition isspace (c : char) : bool :=
  let n := Z.of_N c in
  ((9 <=? n) && (n <=? 13)) || ((28 <=? n) && (n <=? 32)) ||
  (n =? 133) || (n =? 160) || (n =? 5760) ||
  ((8192 <=? n) && (n <=? 8202)) ||
  (n =? 8232) || (n =? 8233) || (n =? 8239) || (n =? 8287) || (n =? 12288).

Definition space : char := 32%N.

(** [re.sub(cls+, repl, text)] for a one-character class [cls]: every
    maximal run of characters of the class is replaced by [repl].  The
    flag records that the previous character was part of the current
    match. *)
Fixpoint re_sub_plus (cls : char -> bool) (repl : str) (in_match : bool)
    (text : str) : str :=
  match text with
  | [] => []
  | c :: rest =>
      if cls c
      then (if in_match then [] else repl) ++ re_sub_plus cls repl true rest
      else c :: re_sub_plus cls repl false rest
  end.

Definition re_sub_spaces (text : str) : str :=
  re_sub_plus isspace [space] false text.

Fixpoint lstrip (s : str) : str :=
  match s with
  | [] => []
  | c :: rest => if isspace c then lstrip rest else s
  end.

Fixpoint rstrip (s : str) : str :=
  match s with
  | [] => []
  | c :: rest =>
      match rstrip rest with
      | [] => if isspace c then [] else [c]
      | kept => c :: kept
      end
  end.

Definition strip (s : str) : str := rstrip (lstrip s).

(** [Lots.clean_text]: [re.sub(r'\s+', ' ', text).strip()]. *)
Definition clean_text (text : str) : str := strip (re_sub_spaces text).

(** A string is clean when it neither starts nor ends with whitespace and
    every whitespace character in it is a single U+0020 between two
    non-whitespace characters. *)
Fixpoint single_spaced (s : str) : bool :=
  match s with
  | [] => true
  | c :: rest =>
      (if isspace c
       then char_eqb c space &&
            match rest with [] => true | d :: _ => negb (isspace d) end
       else true) && single_spaced rest
  end.

Definition no_space_at (o : option char) : bool :=
  match o with Some c => negb (isspace c) | None => true end.

Definition is_clean (s : str) : bool :=
  no_space_at (head s) && no_space_at (last s) && single_spaced s.

(* ===================================================================== *)
(** ** Exceptions and printed output *)
(* ===================================================================== *)

(** The exception classes the module meets.  All of them derive from
    [Exception], which is what the [except Exception] clause of
    [lots_links] catches; [LibraryError] stands for any other such class
    raised inside [requests] or [bs4]. *)
Inductive exn_class :=
| Exception
| TypeError
| ValueError
| AttributeError
| LibraryError (name : str).

(** An exception instance: its class and [str(e)]. *)
Record exn := Raise { exn_cls : exn_class; exn_msg : str }.

(** Outcome of a library call that prints nothing. *)
Definition result (A : Type) : Type := exn + A.

(** A computation: the lines it printed, and how it ended. *)
Definition M (A : Type) : Type := list str * result A.

Definition ret {A} (x : A) : M A := ([], inr x).
Definition raise {A} (e : exn) : M A := ([], inl e).
Definition print (line : str) : M unit := ([line], inr tt).
Definition lift {A} (r : result A) : M A := ([], r).

Definition bind {A B} (m : M A) (k : A -> M B) : M B :=
  match m with
  | (out, inl e) => (out, inl e)
  | (out, inr x) => let '(out', r) := k x in (out ++ out', r)
  end.

(** [try: body  except Exception as e: handler(e)]. *)
Definition try_except {A} (body : M A) (handler : exn -> M A) : M A :=
  match body with
  | (out, inl e) => let '(out', r) := handler e in (out ++ out', r)
  | (out, inr x) => (out, inr x)
  end.

Notation "x <- m ;; k" := (bind m (fun x => k))
  (at level 100, m at next level, right associativity).
Notation "m ;;; k" := (bind m (fun _ => k))
  (at level 100, right associativity).

Definition printed {A} (m : M A) : list str := fst m.
Definition outcome {A} (m : M A) : result A := snd m.

(** The builtin [str] on an [int], under a given digit limit. *)
Definition builtin_str (max_str_digits n : Z) : result str :=
  if int_str_too_long max_str_digits n
  then inl (Raise ValueError
              (lit "Exceeds the limit (" ++ str_of_int max_str_digits ++
               lit " digits) for integer string conversion; use sys.set_int_max_str_digits() to increase the limit"))
  else inr (str_of_int n).

(* ===================================================================== *)
(** ** The parsed document and the bs4 search methods *)
(* ===================================================================== *)

(** An attribute value: a string, or a list of strings for a multi-valued
    attribute such as [class]. *)
Inductive attr_value :=
| AttrStr (s : str)
| AttrList (l : list str).

(** A page element.  The [BeautifulSoup] object itself is a [Tag] whose
    contents are the top-level nodes. *)
#[warnings="-register-all"]
Inductive node :=
| NavigableString (s : str)
| Comment (s : str)
| Tag (name : str) (attrs : gmap str attr_value) (contents : list node).

(** [tag.descendants]: every node below [n], in document order. *)
Fixpoint descendants (n : node) : list node :=
  match n with
  | Tag _ _ contents => flat_map (fun c => c :: descendants c) contents
  | _ => []
  end.

(** [element.text]: the concatenation of the strings below it; comments
    are left out. *)
Fixpoint text (n : node) : str :=
  match n with
  | NavigableString s => s
  | Comment _ => []
  | Tag _ _ contents => flat_map text contents
  end.

(** How bs4 matches the [class_] keyword against an attribute value: a
    multi-valued attribute matches when one of its values is the wanted
    string or when the values joined by a space are; an absent attribute
    matches only a false search value. *)
Definition matches_value (value : option attr_value) (wanted : str) : bool :=
  match value with
  | Some (AttrList l) =>
      existsb (fun item => str_eqb item wanted) l ||
      str_eqb (join [space] l) wanted
  | Some (AttrStr s) => str_eqb s wanted
  | None => negb (truthy wanted)
  end.

(** The test of [find(name, class_=cls)] on one node. *)
Definition matches (name cls : str) (n : node) : bool :=
  match n with
  | Tag tag_name attrs _ =>
      str_eqb tag_name name && matches_value (attrs !! lit "class") cls
  | _ => false
  end.

(** [tag.find_all(name, class_=cls)] and [tag.find(name, class_=cls)].
    [find] yields [None] or a [Tag]; a [Tag] is always true in a boolean
    context, so the source's [if lots:] and [if lot.find(...)] tests are
    matches on the option. *)
Definition find_all (n : node) (name cls : str) : list node :=
  List.filter (matches name cls) (descendants n).

Definition find (n : node) (name cls : str) : option node :=
  head (find_all n name cls).

(** [tag.get(key, default)]. *)
Definition get (n : node) (key : str) (default : attr_value) : attr_value :=
  match n with
  | Tag _ attrs _ =>
      match attrs !! key with Some v => v | None => default end
  | _ => default
  end.

(** [l[:stop]] for an [int] stop. *)
Definition slice_to {A} (l : list A) (stop : Z) : list A :=
  if 0 <=? stop
  then take (Z.to_nat stop) l
  else take (Z.to_nat (Z.of_nat (length l) + stop)) l.

(* ===================================================================== *)
(** ** The [Lots] class *)
(* ===================================================================== *)

(** The attributes of a [Lots] object; [data] is [None] until the page
    has been fetched. *)
Record Lots := { id : str; url : str; data : option str }.

(** What [requests.get] returns, as far as the module reads it. *)
Record response := { status_code : Z; response_text : str }.

(** One entry of the list built by [lots_links]: a dict with these four
    keys. *)
Record lot_record := {
  href : attr_value;
  info : str;
  cost : str;
  server : str
}.

Definition Unknown : str := lit "Unknown".

(** The body of the [for] loop of [lots_links], up to the filter. *)
Definition lot_href (lot : node) : attr_value :=
  get lot (lit "href") (AttrStr Unknown).

Definition lot_info (lot : node) : str :=
  match find lot (lit "div") (lit "tc-desc-text") with
  | Some el => clean_text (text el)
  | None => Unknown
  end.

Definition lot_cost (lot : node) : str :=
  match find lot (lit "div") (lit "tc-price") with
  | Some el => clean_text (text el)
  | None => Unknown
  end.

Definition lot_server (lot : node) : str :=
  let server_element := find lot (lit "div") (lit "tc-server hidden-xs") in
  match server_element with
  | Some el => clean_text (text el)
  | None => Unknown
  end.

Definition check_for_pin_element (lot : node) : option node :=
  find lot (lit "div") (lit "sc-offer-icons").

Definition make_record (lot : node) : lot_record :=
  {| href := lot_href lot; info := lot_info lot;
     cost := lot_cost lot; server := lot_server lot |}.

(** The filter: [if "(RU)" not in server and not check_for_pin_element]. *)
Definition keeps (lot : node) : bool :=
  negb (contains (lit "(RU)") (lot_server lot)) &&
  negb (bool_decide (is_Some (check_for_pin_element lot))).

(** One iteration of the loop: [lots_links.append(...)] when the filter
    passes. *)
Definition loop_step (lots_links : list lot_record) (lot : node)
    : list lot_record :=
  if keeps lot then lots_links ++ [make_record lot] else lots_links.

Section Library.

(** The outside world. *)
Variable requests_get : str -> result response.
Variable BeautifulSoup : option str -> result node.

(** The interpreter's [sys.get_int_max_str_digits()]. *)
Variable int_max_str_digits : Z.

(** [Lots.__get_data__]: returns the updated object and the outcome.
    The status code that [requests] reports is a three-digit [int], far
    below any digit limit, so its text in the message is [str_of_int]. *)
Definition __get_data__ (self : Lots) : Lots * result str :=
  match data self with
  | None =>
      match requests_get (url self) with
      | inl e => (self, inl e)
      | inr response =>
          if status_code response =? 200
          then
            let self := {| id := id self; url := url self;
                           data := Some (response_text response) |} in
            (self, inr (response_text response))
          else
            (self,
             inl (Raise Exception
                    (lit "Error getting data for ID: " ++ id self ++
                     lit ". Status code: " ++
                     str_of_int (status_code response))))
      end
  | Some d => (self, inr d)
  end.

(** [Lots.__init__].  The object has no attribute until [str(ID)] has
    returned: the first component is [None] when that call raises, and
    the object with its three attributes otherwise. *)
Definition __init__ (ID : Z) : option Lots * result unit :=
match builtin_str int_max_str_digits ID with
| inl e => (None, inl e)
| inr self_id =>
    let self_url :=
      py_or (lit "https://funpay.com/en/lots/" ++ self_id ++ lit "/")
            (lit "https://funpay.com/chips/" ++ self_id ++ lit "/") in
    let self := {| id := self_id; url := self_url; data := None |} in
    match __get_data__ self with
    | (self, inl e) => (Some self, inl e)
    | (self, inr _) => (Some self, inr tt)
    end
end.

(** [Lots.lots_links]. *)
Definition lots_links (self : Lots) (max_limit : Z) : M (list lot_record) :=
  try_except
    (soup <- lift (BeautifulSoup (data self)) ;;
     let lots := find soup (lit "div") (lit "showcase-table") in
     let lots_links := [] in
     match lots with
     | Some lots =>
         let lots :=
           slice_to (find_all lots (lit "a") (lit "tc-item")) max_limit in
         ret (fold_left loop_step lots lots_links)
     | None => ret lots_links
     end)
    (fun e =>
       print (lit "Error parsing lots: " ++ exn_msg e) ;;;
       ret []).

End Library.

(* ===================================================================== *)
(** ** [sort_lots] *)
(* ===================================================================== *)

(** [s.split(sep=" ")[0]]: the part of [s] before its first space. *)
Fixpoint first_token (s : str) : str :=
  match s with
  | [] => []
  | c :: rest => if char_eqb c space then [] else c :: first_token rest
  end.

Section Sorter.

Variable BeautifulSoup : option str -> result node.

(** Python floats and their parser are left abstract: [float(s)] either
    yields a float or raises, and [float_lt] is [<] on floats. *)
Variable F : Type.
Variable float : str -> result F.
Variable float_lt : F -> F -> bool.

(** Keys of the mapping that the sorting code expects. *)
Variable K : Type.
Context `{EqDecision K}.

(** The two shapes of value [sort_lots] deals with: the list that
    [lots_links] returns, and the dict its sorting code builds. *)
Inductive pyobj :=
| PyList (l : list lot_record)
| PyDict (d : list (K * lot_record)).

(** [obj.items()]: a method of dicts only. *)
Definition items (obj : pyobj) : result (list (K * lot_record)) :=
  match obj with
  | PyDict d => inr d
  | PyList _ =>
      inl (Raise AttributeError
             (lit "'list' object has no attribute 'items'"))
  end.

(** The [key=] function: [float(x[1]["cost"].split(sep=" ")[0])]. *)
Definition sort_key (x : K * lot_record) : result F :=
  float (first_token (cost (snd x))).

(** [sorted] computes every key first, in order, and stops at the first
    one that raises. *)
Fixpoint decorate {A} (key : A -> result F) (l : list A)
    : result (list (F * A)) :=
  match l with
  | [] => inr []
  | x :: rest =>
      match key x with
      | inl e => inl e
      | inr k =>
          match decorate key rest with
          | inl e => inl e
          | inr rest' => inr ((k, x) :: rest')
          end
      end
  end.

(** Stable insertion: [x] stood before every element of [l]. *)
Fixpoint insert_stable {A} (x : F * A) (l : list (F * A)) : list (F * A) :=
  match l with
  | [] => [x]
  | y :: rest =>
      if float_lt (fst y) (fst x)
      then y :: insert_stable x rest
      else x :: y :: rest
  end.

Definition stable_sort {A} (l : list (F * A)) : list (F * A) :=
  fold_right insert_stable [] l.

(** [sorted(l, key=key, reverse=reverse)]: with [reverse] the list is
    reversed before and after a stable ascending sort. *)
Definition sorted {A} (l : list A) (key : A -> result F) (reverse : bool)
    : result (list A) :=
  match decorate key l with
  | inl e => inl e
  | inr dl =>
      let dl := if reverse then rev dl else dl in
      let dl := stable_sort dl in
      let dl := if reverse then rev dl else dl in
      inr (List.map snd dl)
  end.

(** [d[k] = v] on an insertion-ordered dict. *)
Fixpoint dict_set (d : list (K * lot_record)) (k : K) (v : lot_record)
    : list (K * lot_record) :=
  match d with
  | [] => [(k, v)]
  | (k', v') :: rest =>
      if decide (k = k') then (k', v) :: rest
      else (k', v') :: dict_set rest k v
  end.

(** [dict(pairs)]. *)
Definition dict (pairs : list (K * lot_record)) : list (K * lot_record) :=
  fold_left (fun d kv => dict_set d (fst kv) (snd kv)) pairs [].

(** [Lots.sort_lots]. *)
Definition sort_lots (self : Lots) (sort_by : str) : M pyobj :=
  l <- lots_links BeautifulSoup self 20 ;;
  let lots_links := PyList l in
  if str_eqb sort_by (lit "lowest") then
    pairs <- lift (items lots_links) ;;
    pairs <- lift (sorted pairs sort_key false) ;;
    ret (PyDict (dict pairs))
  else if str_eqb sort_by (lit "highest") then
    pairs <- lift (items lots_links) ;;
    pairs <- lift (sorted pairs sort_key true) ;;
    ret (PyDict (dict pairs))
  else
    raise (Raise ValueError
             (lit "Invalid sort_by parameter. Only 'lowest' and 'highest' are accepted.")).

End Sorter.

Arguments PyList {K} l.
Arguments PyDict {K} d.

(* ===================================================================== *)
(** ** Sample pages and library behaviours *)
(* ===================================================================== *)

Definition class_attr (cls : list string) : gmap str attr_value :=
  {[ lit "class" := AttrList (List.map lit cls) ]}.

Definition div (cls : list string) (contents : list node) : node :=
  Tag (lit "div") (class_attr cls) contents.

Definition text_div (cls : list string) (s : string) : node :=
  div cls [NavigableString (lit s)].

(** [<a class="tc-item" href=...>] with the given contents. *)
Definition item (link : string) (contents : list node) : node :=
  Tag (lit "a") (<[ lit "href" := AttrStr (lit link) ]> (class_attr ["tc-item"%string]))
      contents.

Definition offer (link price region : string) (pinned : bool) : node :=
  item link
    ([text_div ["tc-desc-text"%string] "gold";
      text_div ["tc-price"%string] price;
      text_div ["tc-server"%string; "hidden-xs"%string] region] ++
     (if pinned then [div ["sc-offer-icons"%string] []] else [])).

Definition page (offers : list node) : node :=
  Tag (lit "[document]") ∅ [div ["showcase-table"%string] offers].

(** The page of the specification's end-to-end example. *)
Definition example_page : node :=
  page [offer "/lots/offer?id=1" "10 $" "EU" false;
        offer "/lots/offer?id=2" "5 $" "(RU)" false;
        offer "/lots/offer?id=3" "20 $" "EU" true].

(** Two excluded offers followed by a qualifying one. *)
Definition late_page : node :=
  page [offer "/lots/offer?id=1" "5 $" "(RU)" false;
        offer "/lots/offer?id=2" "20 $" "EU" true;
        offer "/lots/offer?id=3" "10 $" "EU" false].

(** Five qualifying offers. *)
Definition five_page : node :=
  page [offer "/1" "1 $" "EU" false; offer "/2" "2 $" "EU" false;
        offer "/3" "3 $" "EU" false; offer "/4" "4 $" "EU" false;
        offer "/5" "5 $" "EU" false].

(** An [<a class="tc-item">] with no attribute but its class and no
    contents. *)
Definition bare_item : node := Tag (lit "a") (class_attr ["tc-item"%string]) [].

(** A parser that yields a fixed tree for any text and raises on [None],
    as [BeautifulSoup(None, "html.parser")] does. *)
Definition parse_as (doc : node) (markup : option str) : result node :=
  match markup with
  | Some _ => inr doc
  | None =>
      inl (Raise TypeError (lit "object of type 'NoneType' has no len()"))
  end.

(** A server that answers every request with the same response. *)
Definition answer (status : Z) (body : string) (_ : str) : result response :=
  inr {| status_code := status; response_text := lit body |}.

Definition fetched : Lots :=
  {| id := lit "1"; url := lit "https://funpay.com/en/lots/1/";
     data := Some (lit "<html>") |}.

Definition unfetched : Lots :=
  {| id := lit "1"; url := lit "https://funpay.com/en/lots/1/";
     data := None |}.

(* ===================================================================== *)
(** ** Vocabulary of the statements *)
(* ===================================================================== *)

(** [sub] occurs in [s]. *)
Definition substring (sub s : str) : Prop :=
  exists pre post, s = pre ++ sub ++ post.

(** [n] is an element called [name]. *)
Definition is_tag (name : str) (n : node) : Prop :=
  exists attrs contents, n = Tag name attrs contents.

(** The value of attribute [key] of [n], if it has one. *)
Definition attr (n : node) (key : str) : option attr_value :=
  match n with
  | Tag _ attrs _ => attrs !! key
  | _ => None
  end.

(** [cls] is one of the classes of [n]. *)
Definition has_class (cls : str) (n : node) : Prop :=
  attr n (lit "class") = Some (AttrStr cls) \/
  exists l, attr n (lit "class") = Some (AttrList l) /\ In cls l.

(** [n] has a [<div>] of class [cls] somewhere below it. *)
Definition has_div (cls : str) (n : node) : Prop :=
  exists d, In d (descendants n) /\ is_tag (lit "div") d /\ has_class cls d.

(** The lot carries the pinned-offer marker. *)
Definition pinned (lot : node) : Prop := has_div (lit "sc-offer-icons") lot.

(** The [tc-item] links of the showcase table, in document order: what
    [find_all] hands to the slice in [lots_links].  Empty when the parser
    raises or the table is absent. *)
Definition all_candidates (BeautifulSoup : option str -> result node)
    (self : Lots) : list node :=
  match BeautifulSoup (data self) with
  | inr soup =>
      match find soup (lit "div") (lit "showcase-table") with
      | Some lots => find_all lots (lit "a") (lit "tc-item")
      | None => []
      end
  | inl _ => []
  end.

(** The nodes the loop of [lots_links] visits. *)
Definition candidates (BeautifulSoup : option str -> result node)
    (self : Lots) (max_limit : Z) : list node :=
  slice_to (all_candidates BeautifulSoup self) max_limit.

(** The message of the [ValueError] of [sort_lots]. *)
Definition invalid_sort_by : str :=
  lit "Invalid sort_by parameter. Only 'lowest' and 'highest' are accepted.".

(** A float parser and order for the examples: every price reads as 0. *)
Definition float0 (_ : str) : result nat := inr 0%nat.

(** A character that is not whitespace. *)
Definition non_space (c : char) : bool := negb (isspace c).

(** The address [__init__] builds for an identifier. *)
Definition lots_url (ID : Z) : str :=
  lit "https://funpay.com/en/lots/" ++ str_of_int ID ++ lit "/".

(** The raw text of the region element of a lot, when it has one. *)
Definition raw_server (lot : node) : option str :=
  match find lot (lit "div") (lit "tc-server hidden-xs") with
  | Some el => Some (text el)
  | None => None
  end.

(** A page with a blank price element and no region element. *)
Definition blank_price_item : node :=
  item "/lots/offer?id=9" [text_div ["tc-price"%string] "  "].

(* ===================================================================== *)
(** ** Strings *)
(* ===================================================================== *)

Lemma char_eqb_eq (a b : char) : char_eqb a b = true <-> a = b.
Proof. unfold char_eqb. apply N.eqb_eq. Qed.

Lemma str_eqb_eq (a b : str) : str_eqb a b = true <-> a = b.
Proof.
  revert b. induction a as [|x a IH]; intros [|y b]; simpl; try easy.
  rewrite andb_true_iff, char_eqb_eq, IH. split.
  - intros [-> ->]. reflexivity.
  - intros H. injection H as -> ->. easy.
Qed.

Lemma str_eqb_refl (a : str) : str_eqb a a = true.
Proof. apply str_eqb_eq. reflexivity. Qed.

Lemma str_eqb_neq (a b : str) : a <> b -> str_eqb a b = false.
Proof.
  intros H. destruct (str_eqb a b) eqn:E; [|reflexivity].
  apply str_eqb_eq in E. contradiction.
Qed.

Lemma startswith_spec (p s : str) :
  startswith p s = true <-> exists post, s = p ++ post.
Proof.
  revert s. induction p as [|a p IH]; intros s; simpl.
  - split; [intros _; exists s; reflexivity | reflexivity].
  - destruct s as [|b s].
    + split; [discriminate | intros [post H]; discriminate].
    + rewrite andb_true_iff, char_eqb_eq, IH. split.
      * intros [-> [post ->]]. exists post. reflexivity.
      * intros [post H]. injection H as -> ->. split; [reflexivity|].
        exists post. reflexivity.
Qed.

Lemma contains_spec (sub s : str) :
  contains sub s = true <-> substring sub s.
Proof.
  unfold substring. split.
  - induction s as [|c s IH]; simpl; rewrite orb_true_iff.
    + intros [H|H]; [|discriminate].
      apply startswith_spec in H as [post ->]. exists [], post. reflexivity.
    + intros [H|H].
      * apply startswith_spec in H as [post ->]. exists [], post. reflexivity.
      * destruct (IH H) as (pre & post & ->). exists (c :: pre), post.
        reflexivity.
  - intros (pre & post & ->). induction pre as [|c pre IH].
    + simpl. destruct (sub ++ post) eqn:E; simpl; rewrite orb_true_iff; left;
        apply startswith_spec; exists post; rewrite <- E; reflexivity.
    + simpl. rewrite IH. apply orb_true_r.
Qed.

(** *** [clean_text] *)

(** After a substitution, whitespace is single U+0020 characters, and the
    output of a run that is already inside a match does not start with
    one. *)
Lemma re_sub_single_spaced (in_match : bool) (s : str) :
  single_spaced (re_sub_plus isspace [space] in_match s) = true /\
  (in_match = true ->
   no_space_at (head (re_sub_plus isspace [space] in_match s)) = true).
Proof.
  revert in_match. induction s as [|c s IH]; intros in_match; simpl.
  - split; reflexivity.
  - destruct (isspace c) eqn:Ec.
    + destruct (IH true) as [Hs Hh]. specialize (Hh eq_refl).
      destruct in_match; simpl.
      * split; [exact Hs | intros _; exact Hh].
      * split; [|discriminate].
        rewrite Hs, andb_true_r.
        destruct (re_sub_plus isspace [space] true s); [reflexivity|].
        simpl in Hh. rewrite Hh. reflexivity.
    + destruct (IH false) as [Hs _]. simpl. rewrite Ec, Hs. simpl.
      split; [reflexivity | intros _; reflexivity].
Qed.

Lemma lstrip_head (s : str) : no_space_at (head (lstrip s)) = true.
Proof.
  induction s as [|c s IH]; simpl; [reflexivity|].
  destruct (isspace c) eqn:E; [exact IH|]. simpl. rewrite E. reflexivity.
Qed.

Lemma single_spaced_tail (c : char) (s : str) :
  single_spaced (c :: s) = true -> single_spaced s = true.
Proof. simpl. rewrite andb_true_iff. intros [_ H]. exact H. Qed.

Lemma lstrip_single_spaced (s : str) :
  single_spaced s = true -> single_spaced (lstrip s) = true.
Proof.
  induction s as [|c s IH]; intros H; simpl; [reflexivity|].
  destruct (isspace c); [|exact H].
  apply IH. exact (single_spaced_tail _ _ H).
Qed.

(** [rstrip] either drops everything or keeps the first character. *)
Lemma rstrip_cons (c : char) (s : str) :
  rstrip (c :: s) = [] \/ rstrip (c :: s) = c :: rstrip s.
Proof.
  simpl. destruct (rstrip s) eqn:E.
  - destruct (isspace c); [left | right]; reflexivity.
  - right. reflexivity.
Qed.

Lemma rstrip_head (s : str) :
  no_space_at (head s) = true -> no_space_at (head (rstrip s)) = true.
Proof.
  destruct s as [|c s]; [reflexivity|]. intros H.
  destruct (rstrip_cons c s) as [-> | ->]; [reflexivity | exact H].
Qed.

Lemma rstrip_last (s : str) : no_space_at (last (rstrip s)) = true.
Proof.
  induction s as [|c s IH]; simpl; [reflexivity|].
  destruct (rstrip s) as [|d kept] eqn:E.
  - destruct (isspace c) eqn:Ec; simpl; [reflexivity|].
    rewrite Ec. reflexivity.
  - exact IH.
Qed.

Lemma rstrip_single_spaced (s : str) :
  single_spaced s = true -> single_spaced (rstrip s) = true.
Proof.
  induction s as [|c s IH]; intros H; [reflexivity|].
  pose proof (single_spaced_tail _ _ H) as Ht. specialize (IH Ht).
  simpl. destruct (rstrip s) as [|d kept] eqn:E.
  - destruct (isspace c) eqn:Ec; simpl; [reflexivity|].
    rewrite Ec. reflexivity.
  - simpl in H. apply andb_true_iff in H as [Hc _].
    change (single_spaced (c :: d :: kept)) with
      ((if isspace c
        then char_eqb c space && negb (isspace d)
        else true) && single_spaced (d :: kept)).
    rewrite IH, andb_true_r.
    destruct (isspace c); [|reflexivity].
    apply andb_true_iff in Hc as [Hc Hn]. rewrite Hc. simpl.
    destruct s as [|d' s']; [discriminate|].
    destruct (rstrip_cons d' s') as [E'|E']; rewrite E' in E;
      [discriminate|].
    injection E as -> _. exact Hn.
Qed.

(** The result of [clean_text] is clean. *)
Lemma clean_text_is_clean (s : str) : is_clean (clean_text s) = true.
Proof.
  unfold is_clean, clean_text, strip, re_sub_spaces.
  destruct (re_sub_single_spaced false s) as [Hs _].
  rewrite rstrip_head by apply lstrip_head.
  rewrite rstrip_last.
  rewrite rstrip_single_spaced by (apply lstrip_single_spaced; exact Hs).
  reflexivity.
Qed.

(** On a single-spaced string the substitution changes nothing, provided
    the string does not open with a space when a match is under way. *)
Lemma re_sub_fixed (in_match : bool) (s : str) :
  single_spaced s = true ->
  (in_match = true -> no_space_at (head s) = true) ->
  re_sub_plus isspace [space] in_match s = s.
Proof.
  revert in_match. induction s as [|c s IH]; intros in_match Hs Hh;
    [reflexivity|].
  simpl in *. apply andb_true_iff in Hs as [Hc Hs].
  destruct (isspace c) eqn:Ec.
  - apply andb_true_iff in Hc as [Hc Hn]. apply char_eqb_eq in Hc.
    destruct in_match; [specialize (Hh eq_refl); discriminate|].
    simpl. rewrite Hc. f_equal. apply IH; [exact Hs|].
    intros _. destruct s; [reflexivity | exact Hn].
  - f_equal. apply IH; [exact Hs | discriminate].
Qed.

Lemma lstrip_fixed (s : str) : no_space_at (head s) = true -> lstrip s = s.
Proof.
  destruct s as [|c s]; [reflexivity|]. simpl. intros H.
  destruct (isspace c); [discriminate | reflexivity].
Qed.

Lemma rstrip_fixed (s : str) : no_space_at (last s) = true -> rstrip s = s.
Proof.
  induction s as [|c s IH]; [reflexivity|]. intros H.
  destruct s as [|d s'].
  - simpl in *. destruct (isspace c); [discriminate | reflexivity].
  - change (last (c :: d :: s')) with (last (d :: s')) in H.
    specialize (IH H).
    change (rstrip (c :: d :: s')) with
      (match rstrip (d :: s') with
       | [] => if isspace c then [] else [c]
       | kept => c :: kept
       end).
    rewrite IH. reflexivity.
Qed.

Lemma clean_text_fixed (s : str) : is_clean s = true -> clean_text s = s.
Proof.
  unfold is_clean. rewrite !andb_true_iff. intros [[Hh Hl] Hs].
  unfold clean_text, strip, re_sub_spaces.
  rewrite re_sub_fixed by (try exact Hs; discriminate).
  rewrite lstrip_fixed by exact Hh.
  apply rstrip_fixed. exact Hl.
Qed.

(* ===================================================================== *)
(** ** Searching the tree *)
(* ===================================================================== *)

Lemma head_filter_None {A} (p : A -> bool) (l : list A) :
  head (List.filter p l) = None <-> forall x, In x l -> p x = false.
Proof.
  induction l as [|a l IH]; simpl.
  - split; [intros _ x [] | reflexivity].
  - destruct (p a) eqn:E; simpl.
    + split; [discriminate|]. intros H.
      rewrite (H a (or_introl eq_refl)) in E. discriminate.
    + rewrite IH. split.
      * intros H x [<-|Hx]; [exact E | exact (H x Hx)].
      * intros H x Hx. apply H. right. exact Hx.
Qed.

Lemma find_None (n : node) (name cls : str) :
  find n name cls = None <->
  forall d, In d (descendants n) -> matches name cls d = false.
Proof. unfold find, find_all. apply head_filter_None. Qed.

(** A tag called [name] that has class [cls] passes the search test. *)
Lemma matches_intro (name cls : str) (d : node) :
  is_tag name d -> has_class cls d -> matches name cls d = true.
Proof.
  intros (attrs & contents & ->) Hc. unfold has_class in Hc. simpl in *.
  rewrite str_eqb_refl. simpl.
  destruct Hc as [-> | (l & -> & Hin)]; simpl.
  - apply str_eqb_refl.
  - apply orb_true_iff. left. apply existsb_exists.
    exists cls. split; [exact Hin | apply str_eqb_refl].
Qed.

(** A class list joined by spaces can only spell a space-free name when
    that name is one of the classes. *)
Lemma join_space_free (cls : str) (l : list (list N)) :
  ~ In space cls -> cls <> [] -> join [space] l = cls -> In cls l.
Proof.
  intros Hsp Hne. destruct l as [|p [|q rest]]; simpl.
  - intros H. symmetry in H. contradiction.
  - intros ->. left. reflexivity.
  - intros H. exfalso. apply Hsp. rewrite <- H.
    apply in_or_app. right. left. reflexivity.
Qed.

(** Conversely, for a class name without spaces, what passes the search
    test is a tag called [name] with that class. *)
Lemma matches_elim (name cls : str) (d : node) :
  ~ In space cls -> cls <> [] ->
  matches name cls d = true -> is_tag name d /\ has_class cls d.
Proof.
  intros Hsp Hne. destruct d as [s|s|tag attrs contents]; simpl;
    try discriminate.
  rewrite andb_true_iff, str_eqb_eq. intros [-> Hv]. split.
  - exists attrs, contents. reflexivity.
  - unfold has_class. simpl.
    destruct (attrs !! lit "class") as [[s|l]|] eqn:E; simpl in Hv.
    + apply str_eqb_eq in Hv as ->. left. reflexivity.
    + right. exists l. split; [reflexivity|].
      apply orb_true_iff in Hv as [Hv|Hv].
      * apply existsb_exists in Hv as (x & Hin & Hx).
        apply str_eqb_eq in Hx as ->. exact Hin.
      * apply str_eqb_eq in Hv. apply join_space_free; assumption.
    + destruct cls; [contradiction | discriminate].
Qed.

(** [find] comes back empty exactly when no [<div>] of the class is
    below the node. *)
Lemma find_div_None (n : node) (cls : str) :
  ~ In space cls -> cls <> [] ->
  (find n (lit "div") cls = None <-> ~ has_div cls n).
Proof.
  intros Hsp Hne. rewrite find_None. unfold has_div. split.
  - intros H (d & Hin & Ht & Hc).
    specialize (H d Hin).
    rewrite (matches_intro _ _ _ Ht Hc) in H. discriminate.
  - intros H d Hin. destruct (matches (lit "div") cls d) eqn:E;
      [|reflexivity].
    exfalso. apply H. exists d.
    destruct (matches_elim _ _ _ Hsp Hne E) as [Ht Hc]. auto.
Qed.

(* ===================================================================== *)
(** ** The loop of [lots_links] *)
(* ===================================================================== *)

Lemma sublist_filter_bool {A} (p : A -> bool) (l : list A) :
  sublist (List.filter p l) l.
Proof.
  induction l as [|a l IH]; simpl; [constructor|].
  destruct (p a); constructor; exact IH.
Qed.

(** The loop appends the record of every candidate that passes the
    filter, in order. *)
Lemma fold_loop_step (lots : list node) (acc : list lot_record) :
  fold_left loop_step lots acc =
  acc ++ List.map make_record (List.filter keeps lots).
Proof.
  revert acc. induction lots as [|lot lots IH]; intros acc; simpl.
  - rewrite app_nil_r. reflexivity.
  - rewrite IH. unfold loop_step. destruct (keeps lot); simpl.
    + rewrite <- app_assoc. reflexivity.
    + reflexivity.
Qed.

Lemma slice_to_nil {A} (stop : Z) : slice_to (@nil A) stop = [].
Proof. unfold slice_to. destruct (0 <=? stop); apply take_nil. Qed.

(** [lots_links] always returns: the records of the kept candidates. *)
Lemma lots_links_returns (BS : option (list N) -> result node) (self : Lots)
    (m : Z) :
  outcome (lots_links BS self m) =
  inr (List.map make_record (List.filter keeps (candidates BS self m))).
Proof.
  unfold lots_links, candidates, all_candidates.
  destruct (BS (data self)) as [e|soup]; simpl.
  - rewrite slice_to_nil. reflexivity.
  - destruct (find soup (lit "div") (lit "showcase-table")) as [lots|];
      simpl.
    + rewrite fold_loop_step. reflexivity.
    + rewrite slice_to_nil. reflexivity.
Qed.

Lemma keeps_true (lot : node) :
  keeps lot = true <->
  ~ substring (lit "(RU)") (lot_server lot) /\
  check_for_pin_element lot = None.
Proof.
  unfold keeps. rewrite andb_true_iff, !negb_true_iff.
  rewrite <- contains_spec. rewrite not_true_iff_false.
  destruct (check_for_pin_element lot) as [el|]; simpl.
  - split; [intros [_ H]; discriminate | intros [_ H]; discriminate].
  - split; intros [H _]; (split; [exact H | reflexivity]).
Qed.

Lemma pin_marker_name : ~ In space (lit "sc-offer-icons") /\ lit "sc-offer-icons" <> [].
Proof.
  split; [|discriminate]. vm_compute.
  intros H. repeat (destruct H as [H|H]; [discriminate H|]). exact H.
Qed.

Lemma showcase_name : ~ In space (lit "showcase-table") /\ lit "showcase-table" <> [].
Proof.
  split; [|discriminate]. vm_compute.
  intros H. repeat (destruct H as [H|H]; [discriminate H|]). exact H.
Qed.

Lemma keeps_not_pinned (lot : node) : keeps lot = true -> ~ pinned lot.
Proof.
  intros H. apply keeps_true in H as [_ H].
  unfold pinned. destruct pin_marker_name as [Hsp Hne].
  apply (find_div_None lot _ Hsp Hne). exact H.
Qed.

(** [l[:stop]] for a non-negative and for a negative stop. *)
Lemma slice_to_nonneg {A} (l : list A) (stop : Z) :
  0 <= stop -> slice_to l stop = take (Z.to_nat stop) l.
Proof.
  intros H. unfold slice_to. destruct (0 <=? stop) eqn:E; [reflexivity|].
  apply Z.leb_gt in E. lia.
Qed.

Lemma slice_to_negative {A} (l : list A) (stop : Z) :
  stop < 0 -> slice_to l stop = take (length l - Z.to_nat (- stop)) l.
Proof.
  intros H. unfold slice_to. destruct (0 <=? stop) eqn:E.
  - apply Z.leb_le in E. lia.
  - f_equal. lia.
Qed.

Lemma length_filter_le {A} (p : A -> bool) (l : list A) :
  (length (List.filter p l) <= length l)%nat.
Proof.
  induction l as [|a l IH]; simpl; [lia|]. destruct (p a); simpl; lia.
Qed.

(* ===================================================================== *)
(** ** [sort_lots] on the list that [lots_links] returns *)
(* ===================================================================== *)

Section SorterFacts.

Variable BS : option (list N) -> result node.
Variable F : Type.
Variable float : list N -> result F.
Variable float_lt : F -> F -> bool.
Variable K : Type.
Context `{EqDecision K}.

(** With either accepted token, the call stops at [.items()]. *)
Lemma sort_lots_accepted_token (self : Lots) (sort_by : list N) :
  sort_by = lit "lowest" \/ sort_by = lit "highest" ->
  outcome (sort_lots BS F float float_lt K self sort_by) =
  inl (Raise AttributeError (lit "'list' object has no attribute 'items'")).
Proof.
  intros Hs. unfold sort_lots.
  pose proof (lots_links_returns BS self 20) as Hl.
  destruct (lots_links BS self 20) as [out [e|l]];
    unfold outcome in Hl; simpl in Hl; [discriminate|].
  destruct Hs as [-> | ->]; reflexivity.
Qed.

(** With any other token, the call raises the [ValueError]. *)
Lemma sort_lots_other_token (self : Lots) (sort_by : list N) :
  sort_by <> lit "lowest" -> sort_by <> lit "highest" ->
  outcome (sort_lots BS F float float_lt K self sort_by) =
  inl (Raise ValueError invalid_sort_by).
Proof.
  intros H1 H2. unfold sort_lots.
  pose proof (lots_links_returns BS self 20) as Hl.
  destruct (lots_links BS self 20) as [out [e|l]];
    unfold outcome in Hl; simpl in Hl; [discriminate|].
  unfold bind. rewrite (str_eqb_neq _ _ H1), (str_eqb_neq _ _ H2).
  reflexivity.
Qed.

End SorterFacts.

(* ===================================================================== *)
(** ** The decimal text of an [int] *)
(* ===================================================================== *)

Lemma length_lit (s : string) : length (lit s) = String.length s.
Proof.
  unfold lit. rewrite length_map.
  induction s as [|c s IH]; simpl; [reflexivity | rewrite IH; reflexivity].
Qed.

Lemma length_string_of_uint (d : Decimal.uint) :
  String.length (NilEmpty.string_of_uint d) = Decimal.nb_digits d.
Proof. induction d; simpl; congruence. Qed.

Lemma of_lu_lt (d : Decimal.uint) :
  (DecimalPos.Unsigned.of_lu d < 10 ^ DecimalPos.Unsigned.usize d)%N.
Proof.
  induction d;
    cbn [DecimalPos.Unsigned.of_lu DecimalPos.Unsigned.usize];
    rewrite ?N.pow_succ_r', ?N.pow_0_r; lia.
Qed.

Lemma usize_nb_digits (d : Decimal.uint) :
  DecimalPos.Unsigned.usize d = N.of_nat (Decimal.nb_digits d).
Proof.
  induction d; cbn [DecimalPos.Unsigned.usize Decimal.nb_digits];
    rewrite ?IHd; lia.
Qed.

(** A positive number is below 10 to the number of its digits. *)
Lemma pos_lt_pow_digits (p : positive) :
  Z.pos p < 10 ^ Z.of_nat (length (str_of_int (Z.pos p))).
Proof.
  unfold str_of_int. rewrite length_lit. cbn [Z.to_int NilZero.string_of_int].
  assert (Hn : Pos.to_uint p <> Decimal.Nil)
    by apply DecimalPos.Unsigned.to_uint_nonnil.
  assert (Hs : NilZero.string_of_uint (Pos.to_uint p) =
               NilEmpty.string_of_uint (Pos.to_uint p)).
  { destruct (Pos.to_uint p); [contradiction | reflexivity..]. }
  rewrite Hs, length_string_of_uint.
  pose proof (of_lu_lt (Decimal.rev (Pos.to_uint p))) as H.
  rewrite <- DecimalPos.Unsigned.of_uint_alt in H.
  rewrite DecimalPos.Unsigned.of_to in H.
  rewrite usize_nb_digits, DecimalFacts.nb_digits_rev in H.
  apply N2Z.inj_lt in H. rewrite N2Z.inj_pow, nat_N_Z in H. exact H.
Qed.

(** A number that reaches [10 ^ k] has more than [k] digits. *)
Lemma digits_lower_bound (n k : Z) :
  0 <= k -> 10 ^ k <= n -> k < Z.of_nat (length (str_of_int n)).
Proof.
  intros Hk Hn.
  assert (Hp : 0 < 10 ^ k) by (apply Z.pow_pos_nonneg; lia).
  destruct n as [|p|p]; try lia.
  pose proof (pos_lt_pow_digits p) as H.
  apply (Z.pow_lt_mono_r_iff 10); [lia | lia | lia].
Qed.

(** Under a limit of at least 640 digits, [10 ^ limit] is too long. *)
Lemma int_str_too_long_pow (max_digits : Z) :
  640 <= max_digits -> int_str_too_long max_digits (10 ^ max_digits) = true.
Proof.
  intros H. unfold int_str_too_long.
  assert (H0 : 0 <= 10 ^ max_digits) by (apply Z.pow_nonneg; lia).
  rewrite (Z.abs_eq _ H0).
  pose proof (digits_lower_bound (10 ^ max_digits) max_digits
                ltac:(lia) (Z.le_refl _)) as Hd.
  rewrite !andb_true_iff, !Z.ltb_lt. split; [split|]; lia.
Qed.

(* ===================================================================== *)
(** ** The constructor *)
(* ===================================================================== *)

(** [__init__] converts the identifier and, if that works, fetches on the
    fresh object; the [or] picks its first operand because that string
    is not empty. *)
Lemma init_unfold (rg : list N -> result response) (max_digits ID : Z) :
  __init__ rg max_digits ID =
  match builtin_str max_digits ID with
  | inl e => (None, inl e)
  | inr _ =>
      match __get_data__ rg
              {| id := str_of_int ID; url := lots_url ID; data := None |} with
      | (self, inl e) => (Some self, inl e)
      | (self, inr _) => (Some self, inr tt)
      end
  end.
Proof.
  unfold __init__, builtin_str.
  destruct (int_str_too_long max_digits ID); reflexivity.
Qed.

(** A fetch never touches [id] and [url]. *)
Lemma get_data_keeps_id_url (rg : list N -> result response) (self : Lots) :
  id (fst (__get_data__ rg self)) = id self /\
  url (fst (__get_data__ rg self)) = url self.
Proof.
  unfold __get_data__. destruct (data self); [split; reflexivity|].
  destruct (rg (url self)) as [e|resp]; [split; reflexivity|].
  destruct (status_code resp =? 200); split; reflexivity.
Qed.

(** The object that [__init__] leaves, when it leaves one. *)
Lemma init_Some_inv (rg : list N -> result response) (max_digits ID : Z)
    (self : Lots) :
  fst (__init__ rg max_digits ID) = Some self ->
  int_str_too_long max_digits ID = false /\
  id self = str_of_int ID /\ url self = lots_url ID.
Proof.
  rewrite init_unfold. unfold builtin_str.
  destruct (int_str_too_long max_digits ID); [discriminate|].
  pose proof (get_data_keeps_id_url rg
                {| id := str_of_int ID; url := lots_url ID; data := None |})
    as [Hi Hu].
  destruct (__get_data__ rg _) as [self' [e|d]]; simpl in *;
    intros [= <-]; auto.
Qed.

Lemma init_Some (rg : list N -> result response) (max_digits ID : Z) :
  int_str_too_long max_digits ID = false ->
  exists self, fst (__init__ rg max_digits ID) = Some self.
Proof.
  intros H. rewrite init_unfold. unfold builtin_str. rewrite H.
  destruct (__get_data__ rg _) as [self [e|d]]; eexists; reflexivity.
Qed.

(** The end-to-end example of the specification: of the three offers
    only the first is returned. *)
Example lots_links_example_page :
  lots_links (parse_as example_page) fetched 10 =
    ([], inr [ {| href := AttrStr (lit "/lots/offer?id=1");
                  info := lit "gold"; cost := lit "10 $";
                  server := lit "EU" |} ]).
Proof. vm_compute. reflexivity. Qed.

Example clean_text_example :
  clean_text (lit "  10   $ ") = lit "10 $" /\
  clean_text [9; 49; 10; 13; 160; 36; 8232]%N = lit "1 $".
Proof. split; reflexivity. Qed.

Example str_of_int_examples :
  str_of_int 0 = lit "0" /\ str_of_int 404 = lit "404" /\
  str_of_int (-17) = lit "-17".
Proof. repeat split; reflexivity. Qed.

(* ===================================================================== *)
(** ** The properties of the specification *)
(* ===================================================================== *)

(** C1.  Whatever the parser yields and whatever the limit, the records
    returned by [lots_links] are the records of some of the visited
    candidates, in order; none of these records has a server text in
    which "(RU)" occurs, and none of these candidates has a [<div>] of
    class [sc-offer-icons] below it. *)
Theorem lots_links_excludes_RU_and_pinned
    (BS : option (list N) -> result node) (self : Lots) (m : Z) :
  exists kept : list node,
    outcome (lots_links BS self m) = inr (List.map make_record kept) /\
    sublist kept (candidates BS self m) /\
    Forall (fun r => ~ substring (lit "(RU)") (server r))
           (List.map make_record kept) /\
    Forall (fun lot => ~ pinned lot) kept.
Proof.
  exists (List.filter keeps (candidates BS self m)).
  split; [apply lots_links_returns|].
  split; [apply sublist_filter_bool|].
  split.
  - apply List.Forall_forall. intros r Hr.
    apply in_map_iff in Hr as (lot & <- & Hlot).
    apply filter_In in Hlot as [_ Hk].
    apply keeps_true in Hk as [Hk _]. exact Hk.
  - apply List.Forall_forall. intros lot Hlot.
    apply filter_In in Hlot as [_ Hk].
    apply keeps_not_pinned. exact Hk.
Qed.

(** C2.  For a limit [m >= 0] the result is the filtered records of the
    first [m] candidates in document order, so it has at most [m]
    entries; and it can have fewer than [m] while a candidate past the
    cut would have passed the filter. *)
Theorem lots_links_truncates_then_filters :
  (forall (BS : option (list N) -> result node) (self : Lots) (m : Z),
     0 <= m ->
     exists records,
       outcome (lots_links BS self m) = inr records /\
       records =
         List.map make_record
           (List.filter keeps (take (Z.to_nat m) (all_candidates BS self))) /\
       Z.of_nat (length records) <= m) /\
  (exists (BS : option (list N) -> result node) (self : Lots) (m : Z)
          (lot : node),
     0 <= m /\
     (exists records,
        outcome (lots_links BS self m) = inr records /\
        Z.of_nat (length records) < m) /\
     In lot (drop (Z.to_nat m) (all_candidates BS self)) /\
     keeps lot = true).
Proof.
  split.
  - intros BS self m Hm. eexists. split; [apply lots_links_returns|].
    unfold candidates. rewrite (slice_to_nonneg _ _ Hm).
    split; [reflexivity|].
    rewrite length_map.
    pose proof (length_filter_le keeps
                  (take (Z.to_nat m) (all_candidates BS self))) as H1.
    pose proof (firstn_le_length (Z.to_nat m) (all_candidates BS self)) as H2.
    lia.
  - exists (parse_as late_page), fetched, 2,
      (offer "/lots/offer?id=3" "10 $" "EU" false).
    split; [lia|]. split.
    + exists []. split; [vm_compute; reflexivity | simpl; lia].
    + split; [vm_compute; left; reflexivity | vm_compute; reflexivity].
Qed.

Lemma lots_links_truncates_then_filters_witness :
  exists records,
    outcome (lots_links (parse_as five_page) fetched 3) = inr records /\
    records =
      List.map make_record
        (List.filter keeps
           (take (Z.to_nat 3) (all_candidates (parse_as five_page) fetched))) /\
    Z.of_nat (length records) <= 3.
Proof.
  apply (proj1 lots_links_truncates_then_filters
           (parse_as five_page) fetched 3).
  lia.
Defined.

(** C3.  With the token "lowest", and with "highest", [sort_lots] does
    not return sorted records: on every page it raises [AttributeError],
    because the value it asks for [.items()] is the list that
    [lots_links] returned. *)
Theorem sort_lots_raises_AttributeError
    (BS : option (list N) -> result node) (F : Type)
    (float : list N -> result F) (float_lt : F -> F -> bool)
    (K : Type) `{EqDecision K} (self : Lots) :
  outcome (sort_lots BS F float float_lt K self (lit "lowest")) =
    inl (Raise AttributeError (lit "'list' object has no attribute 'items'")) /\
  outcome (sort_lots BS F float float_lt K self (lit "highest")) =
    inl (Raise AttributeError (lit "'list' object has no attribute 'items'")).
Proof.
  split; apply sort_lots_accepted_token; [left | right]; reflexivity.
Qed.

(** C4.  [lots_links] never raises: it always returns a list; when the
    parser raises, the list is empty; and when the parsed page has no
    [<div>] of class [showcase-table], the list is empty and nothing is
    printed. *)
Theorem lots_links_never_raises
    (BS : option (list N) -> result node) (self : Lots) (m : Z) :
  (exists records, outcome (lots_links BS self m) = inr records) /\
  (forall e, BS (data self) = inl e ->
     lots_links BS self m =
       ([lit "Error parsing lots: " ++ exn_msg e], inr [])) /\
  (forall soup, BS (data self) = inr soup ->
     ~ has_div (lit "showcase-table") soup ->
     lots_links BS self m = ([], inr [])).
Proof.
  split; [eexists; apply lots_links_returns|]. split.
  - intros e He. unfold lots_links. rewrite He. reflexivity.
  - intros soup Hs Hno. unfold lots_links. rewrite Hs.
    destruct showcase_name as [Hsp Hne].
    apply (find_div_None soup _ Hsp Hne) in Hno.
    simpl. rewrite Hno. reflexivity.
Qed.

Lemma lots_links_never_raises_witness :
  lots_links (parse_as example_page) unfetched 20 =
    ([lit "Error parsing lots: object of type 'NoneType' has no len()"],
     inr []) /\
  lots_links (parse_as (Tag (lit "[document]") ∅ [])) fetched 20 =
    ([], inr []).
Proof.
  split.
  - exact (proj1 (proj2 (lots_links_never_raises
                           (parse_as example_page) unfetched 20))
             (Raise TypeError (lit "object of type 'NoneType' has no len()"))
             eq_refl).
  - apply (proj2 (proj2 (lots_links_never_raises
                           (parse_as (Tag (lit "[document]") ∅ []))
                           fetched 20))
             (Tag (lit "[document]") ∅ [])).
    + reflexivity.
    + intros (d & Hin & _). exact Hin.
Defined.

(** C5.  When the page has not been fetched yet and the server answers:
    on status 200 the body is stored in [data] and returned; on any other
    status the call raises an [Exception] whose message holds the
    identifier and the status code, and [data] stays [None]. *)
Theorem get_data_by_status
    (requests_get : list N -> result response) (self : Lots)
    (resp : response) :
  data self = None ->
  requests_get (url self) = inr resp ->
  (status_code resp = 200 ->
     __get_data__ requests_get self =
       ({| id := id self; url := url self;
           data := Some (response_text resp) |},
        inr (response_text resp))) /\
  (status_code resp <> 200 ->
     exists e,
       __get_data__ requests_get self = (self, inl e) /\
       exn_cls e = Exception /\
       exn_msg e =
         lit "Error getting data for ID: " ++ id self ++
         lit ". Status code: " ++ str_of_int (status_code resp) /\
       substring (id self) (exn_msg e) /\
       substring (str_of_int (status_code resp)) (exn_msg e) /\
       data (fst (__get_data__ requests_get self)) = None).
Proof.
  intros Hd Hr. unfold __get_data__. rewrite Hd, Hr. split.
  - intros H. apply Z.eqb_eq in H. rewrite H. reflexivity.
  - intros H. apply Z.eqb_neq in H. rewrite H.
    eexists. split; [reflexivity|]. simpl.
    split; [reflexivity|]. split; [reflexivity|]. split.
    + exists (lit "Error getting data for ID: "),
        (lit ". Status code: " ++ str_of_int (status_code resp)).
      reflexivity.
    + split; [|exact Hd].
      exists (lit "Error getting data for ID: " ++ id self ++
              lit ". Status code: "), [].
      rewrite app_nil_r, <- !app_assoc. reflexivity.
Qed.

Lemma get_data_by_status_witness :
  __get_data__ (answer 200 "<html>") unfetched =
    ({| id := lit "1"; url := lit "https://funpay.com/en/lots/1/";
        data := Some (lit "<html>") |}, inr (lit "<html>")) /\
  exists e,
    __get_data__ (answer 404 "") unfetched = (unfetched, inl e) /\
    exn_msg e = lit "Error getting data for ID: 1. Status code: 404".
Proof.
  split.
  - apply (proj1 (get_data_by_status (answer 200 "<html>") unfetched
                    {| status_code := 200; response_text := lit "<html>" |}
                    eq_refl eq_refl)).
    reflexivity.
  - destruct (proj2 (get_data_by_status (answer 404 "") unfetched
                       {| status_code := 404; response_text := lit "" |}
                       eq_refl eq_refl)) as (e & He & _ & Hm & _).
    + discriminate.
    + exists e. split; [exact He | exact Hm].
Defined.

(** C6, as stated, fails: the [ValueError] raised for the token
    "cheapest" has a message in which "cheapest" does not occur. *)
Lemma sort_lots_error_omits_token :
  ~ (exists e,
       outcome (sort_lots (parse_as example_page) nat float0 Nat.ltb nat
                  fetched (lit "cheapest")) = inl e /\
       exn_cls e = ValueError /\
       substring (lit "cheapest") (exn_msg e)).
Proof.
  intros (e & He & _ & Hsub).
  vm_compute in He. injection He as <-.
  apply contains_spec in Hsub. vm_compute in Hsub. discriminate.
Qed.

(** C6, amended.  For every token other than "lowest" and "highest",
    [sort_lots] raises a [ValueError] with the fixed message "Invalid
    sort_by parameter. Only 'lowest' and 'highest' are accepted."; for
    "lowest" and "highest" it never raises a [ValueError]. *)
Theorem sort_lots_invalid_token
    (BS : option (list N) -> result node) (F : Type)
    (float : list N -> result F) (float_lt : F -> F -> bool)
    (K : Type) `{EqDecision K} (self : Lots) (sort_by : list N) :
  (sort_by <> lit "lowest" -> sort_by <> lit "highest" ->
   outcome (sort_lots BS F float float_lt K self sort_by) =
     inl (Raise ValueError invalid_sort_by)) /\
  (sort_by = lit "lowest" \/ sort_by = lit "highest" ->
   forall e,
     outcome (sort_lots BS F float float_lt K self sort_by) = inl e ->
     exn_cls e <> ValueError).
Proof.
  split.
  - apply sort_lots_other_token.
  - intros Hs e He.
    rewrite (sort_lots_accepted_token BS F float float_lt K self sort_by Hs)
      in He.
    injection He as <-. discriminate.
Qed.

Lemma sort_lots_invalid_token_witness :
  outcome (sort_lots (parse_as example_page) nat float0 Nat.ltb nat
             fetched (lit "cheapest")) =
    inl (Raise ValueError invalid_sort_by) /\
  forall e,
    outcome (sort_lots (parse_as example_page) nat float0 Nat.ltb nat
               fetched (lit "highest")) = inl e ->
    exn_cls e <> ValueError.
Proof.
  split.
  - apply (proj1 (sort_lots_invalid_token (parse_as example_page) nat float0
                    Nat.ltb nat fetched (lit "cheapest")));
      discriminate.
  - apply (proj2 (sort_lots_invalid_token (parse_as example_page) nat float0
                    Nat.ltb nat fetched (lit "highest"))).
    right. reflexivity.
Defined.

(** C7, as stated, fails: under the default limit of 4300 digits,
    [__init__] on the identifier 10^4300 raises at [str(ID)] and leaves
    an object without [url]. *)
Lemma init_huge_id_sets_no_url :
  ~ (exists self,
       fst (__init__ (answer 200 "<html>") 4300 (10 ^ 4300)) = Some self /\
       url self =
         lit "https://funpay.com/en/lots/" ++ str_of_int (10 ^ 4300) ++
         lit "/").
Proof.
  intros (self & H & _). apply init_Some_inv in H as [H _].
  rewrite (int_str_too_long_pow 4300) in H; [discriminate H | discriminate].
Qed.

(** C7, amended.  For every identifier that [str] converts (one within
    the interpreter's digit limit), the object built by [__init__] has
    [id = str(ID)] and [url = "https://funpay.com/en/lots/<id>/"],
    whatever the fetch does.  For no identifier is the url the "chips"
    one.  For an identifier beyond the limit, [__init__] raises
    [ValueError] and assigns nothing. *)
Theorem init_url (requests_get : list N -> result response)
    (max_digits ID : Z) :
  (int_str_too_long max_digits ID = false ->
   exists self,
     fst (__init__ requests_get max_digits ID) = Some self /\
     id self = str_of_int ID /\
     url self =
       lit "https://funpay.com/en/lots/" ++ str_of_int ID ++ lit "/") /\
  (forall self,
     fst (__init__ requests_get max_digits ID) = Some self ->
     url self <>
       lit "https://funpay.com/chips/" ++ str_of_int ID ++ lit "/") /\
  (int_str_too_long max_digits ID = true ->
   exists e,
     __init__ requests_get max_digits ID = (None, inl e) /\
     exn_cls e = ValueError).
Proof.
  split; [|split].
  - intros H. destruct (init_Some requests_get max_digits ID H) as [self Hs].
    exists self. split; [exact Hs|].
    apply init_Some_inv in Hs as (_ & Hi & Hu). split; [exact Hi|].
    exact Hu.
  - intros self Hs. apply init_Some_inv in Hs as (_ & _ & Hu).
    rewrite Hu. unfold lots_url. simpl. intros H. discriminate H.
  - intros H. rewrite init_unfold. unfold builtin_str. rewrite H.
    eexists. split; reflexivity.
Qed.

Lemma init_url_witness :
  (exists self,
     fst (__init__ (answer 404 "") 4300 1234) = Some self /\
     id self = lit "1234" /\
     url self = lit "https://funpay.com/en/lots/1234/") /\
  (exists e,
     __init__ (answer 200 "<html>") 4300 (10 ^ 4300) = (None, inl e) /\
     exn_cls e = ValueError).
Proof.
  split.
  - apply (proj1 (init_url (answer 404 "") 4300 1234)). reflexivity.
  - apply (proj2 (proj2 (init_url (answer 200 "<html>") 4300 (10 ^ 4300)))).
    apply int_str_too_long_pow. discriminate.
Defined.

(** C8.  A candidate that the loop visits and that passes the filter has
    its record in the result; in that record, [href] is "Unknown" when
    the link has no [href] attribute, and [info], [cost] and [server] are
    "Unknown" when [find] comes back empty for their [<div>]. *)
Theorem missing_fields_are_Unknown
    (BS : option (list N) -> result node) (self : Lots) (m : Z)
    (lot : node) :
  In lot (candidates BS self m) ->
  keeps lot = true ->
  (exists records,
     outcome (lots_links BS self m) = inr records /\
     In (make_record lot) records) /\
  (attr lot (lit "href") = None ->
   href (make_record lot) = AttrStr (lit "Unknown")) /\
  (find lot (lit "div") (lit "tc-desc-text") = None ->
   info (make_record lot) = lit "Unknown") /\
  (find lot (lit "div") (lit "tc-price") = None ->
   cost (make_record lot) = lit "Unknown") /\
  (find lot (lit "div") (lit "tc-server hidden-xs") = None ->
   server (make_record lot) = lit "Unknown").
Proof.
  intros Hin Hk. split.
  - eexists. split; [apply lots_links_returns|].
    apply in_map. apply filter_In. split; assumption.
  - repeat split.
    + intros H. cbn [href make_record]. unfold lot_href, get.
      destruct lot as [s|s|name attrs contents]; try reflexivity.
      simpl in H. rewrite H. reflexivity.
    + intros H. cbn [info make_record]. unfold lot_info. rewrite H.
      reflexivity.
    + intros H. cbn [cost make_record]. unfold lot_cost. rewrite H.
      reflexivity.
    + intros H. cbn [server make_record]. unfold lot_server. rewrite H.
      reflexivity.
Qed.

Lemma missing_fields_are_Unknown_witness :
  (exists records,
     outcome (lots_links (parse_as (page [bare_item])) fetched 20) =
       inr records /\
     In (make_record bare_item) records) /\
  make_record bare_item =
    {| href := AttrStr (lit "Unknown"); info := lit "Unknown";
       cost := lit "Unknown"; server := lit "Unknown" |}.
Proof.
  destruct (missing_fields_are_Unknown
              (parse_as (page [bare_item])) fetched 20 bare_item)
    as (Hr & Hh & Hi & Hc & Hs).
  - vm_compute. left. reflexivity.
  - vm_compute. reflexivity.
  - split; [exact Hr|].
    specialize (Hh eq_refl). specialize (Hi eq_refl).
    specialize (Hc eq_refl). specialize (Hs eq_refl).
    destruct (make_record bare_item) as [h i c s]. simpl in *.
    rewrite Hh, Hi, Hc, Hs. reflexivity.
Defined.

(** C9.  [clean_text] is idempotent, and it returns a clean string (no
    whitespace at either end, every whitespace character a lone U+0020)
    unchanged. *)
Theorem clean_text_idempotent :
  (forall s : list N, clean_text (clean_text s) = clean_text s) /\
  (forall s : list N, is_clean s = true -> clean_text s = s).
Proof.
  split.
  - intros s. apply clean_text_fixed. apply clean_text_is_clean.
  - apply clean_text_fixed.
Qed.

Lemma clean_text_idempotent_witness :
  clean_text (lit "10 $") = lit "10 $".
Proof.
  apply (proj2 clean_text_idempotent (lit "10 $")). reflexivity.
Defined.

(** C10.  For a negative limit [m] the loop visits every candidate but
    the last [|m|], so the result is not bounded by [m]: with [m = -1] a
    page of five qualifying offers yields four records. *)
Theorem negative_max_limit_drops_tail :
  (forall (BS : option (list N) -> result node) (self : Lots) (m : Z),
     m < 0 ->
     exists records,
       outcome (lots_links BS self m) = inr records /\
       records =
         List.map make_record
           (List.filter keeps
              (take (length (all_candidates BS self) - Z.to_nat (- m))
                    (all_candidates BS self))) /\
       m < Z.of_nat (length records)) /\
  (exists records,
     outcome (lots_links (parse_as five_page) fetched (-1)) = inr records /\
     length records = 4%nat /\
     length (all_candidates (parse_as five_page) fetched) = 5%nat /\
     forallb keeps (all_candidates (parse_as five_page) fetched) = true).
Proof.
  split.
  - intros BS self m Hm. eexists. split; [apply lots_links_returns|].
    unfold candidates. rewrite (slice_to_negative _ _ Hm).
    split; [reflexivity | lia].
  - eexists. split; [apply lots_links_returns|].
    split; [|split]; vm_compute; reflexivity.
Qed.

Lemma negative_max_limit_drops_tail_witness :
  exists records,
    outcome (lots_links (parse_as five_page) fetched (-2)) = inr records /\
    records =
      List.map make_record
        (List.filter keeps
           (take (length (all_candidates (parse_as five_page) fetched) -
                  Z.to_nat (- -2))
                 (all_candidates (parse_as five_page) fetched))) /\
    -2 < Z.of_nat (length records).
Proof.
  apply (proj1 negative_max_limit_drops_tail (parse_as five_page) fetched (-2)).
  lia.
Defined.


(* ===================================================================== *)
(** ** Further properties of [clean_text] *)
(* ===================================================================== *)

Lemma rstrip_nil_all_space (s : list N) :
  rstrip s = [] -> forallb isspace s = true.
Proof.
  induction s as [|c s IH]; simpl; [reflexivity|].
  destruct (rstrip s) eqn:E; [|discriminate].
  destruct (isspace c); [|discriminate]. intros _. apply IH. reflexivity.
Qed.

(** Each stage of [clean_text] keeps the non-whitespace characters. *)
Lemma re_sub_keeps_non_space (in_match : bool) (s : list N) :
  List.filter non_space (re_sub_plus isspace [space] in_match s) =
  List.filter non_space s.
Proof.
  revert in_match. induction s as [|c s IH]; intros in_match; simpl;
    [reflexivity|].
  unfold non_space at 2. destruct (isspace c) eqn:Ec; simpl.
  - destruct in_match; simpl; apply IH.
  - unfold non_space at 1. rewrite Ec. simpl. f_equal. apply IH.
Qed.

Lemma lstrip_keeps_non_space (s : list N) :
  List.filter non_space (lstrip s) = List.filter non_space s.
Proof.
  induction s as [|c s IH]; simpl; [reflexivity|].
  unfold non_space at 2. destruct (isspace c) eqn:Ec; simpl.
  - exact IH.
  - unfold non_space at 1. rewrite Ec. reflexivity.
Qed.

Lemma rstrip_keeps_non_space (s : list N) :
  List.filter non_space (rstrip s) = List.filter non_space s.
Proof.
  induction s as [|c s IH]; simpl; [reflexivity|].
  destruct (rstrip s) as [|d kept] eqn:E.
  - rewrite <- IH. simpl. unfold non_space.
    destruct (isspace c) eqn:Ec; simpl; rewrite ?Ec; reflexivity.
  - rewrite <- IH. reflexivity.
Qed.

Lemma clean_text_keeps_non_space (s : list N) :
  List.filter non_space (clean_text s) = List.filter non_space s.
Proof.
  unfold clean_text, strip, re_sub_spaces.
  rewrite rstrip_keeps_non_space, lstrip_keeps_non_space.
  apply re_sub_keeps_non_space.
Qed.

Lemma filter_non_space_nil (s : list N) :
  List.filter non_space s = [] <-> forallb isspace s = true.
Proof.
  induction s as [|c s IH]; simpl; [easy|].
  unfold non_space at 1. destruct (isspace c); simpl.
  - exact IH.
  - split; discriminate.
Qed.

(** Each stage of [clean_text] can only shorten the string. *)
Lemma re_sub_length (in_match : bool) (s : list N) :
  (length (re_sub_plus isspace [space] in_match s) <= length s)%nat.
Proof.
  revert in_match. induction s as [|c s IH]; intros in_match; simpl;
    [lia|].
  destruct (isspace c).
  - specialize (IH true). destruct in_match; simpl; lia.
  - specialize (IH false). simpl. lia.
Qed.

Lemma lstrip_length (s : list N) : (length (lstrip s) <= length s)%nat.
Proof.
  induction s as [|c s IH]; simpl; [lia|].
  destruct (isspace c); simpl; lia.
Qed.

Lemma rstrip_length (s : list N) : (length (rstrip s) <= length s)%nat.
Proof.
  induction s as [|c s IH]; simpl; [lia|].
  destruct (rstrip s); [destruct (isspace c)|]; simpl in *; lia.
Qed.

(** Where a whitespace character stands in a single-spaced string. *)
Lemma single_spaced_app (pre post : list N) :
  single_spaced (pre ++ post) = true -> single_spaced post = true.
Proof.
  induction pre as [|a pre IH]; simpl; [easy|].
  rewrite andb_true_iff. intros [_ H]. apply IH. exact H.
Qed.

Lemma single_spaced_after (c : N) (post : list N) :
  single_spaced (c :: post) = true -> isspace c = true ->
  c = space /\ no_space_at (head post) = true.
Proof.
  simpl. intros H Hc. rewrite Hc in H.
  apply andb_true_iff in H as [H _]. apply andb_true_iff in H as [H1 H2].
  apply char_eqb_eq in H1. split; [exact H1|].
  destruct post; [reflexivity | exact H2].
Qed.

Lemma single_spaced_before (pre post : list N) (c : N) :
  single_spaced (pre ++ c :: post) = true -> isspace c = true ->
  no_space_at (last pre) = true.
Proof.
  intros H Hc. induction pre as [|a pre IH]; [reflexivity|].
  destruct pre as [|b pre'].
  - simpl in *. destruct (isspace a); [|reflexivity].
    rewrite Hc in H. simpl in H. rewrite andb_false_r in H. discriminate.
  - change (last (a :: b :: pre')) with (last (b :: pre')).
    apply IH. simpl in H. apply andb_true_iff in H as [_ H]. exact H.
Qed.

(** A needle without whitespace is found in the same places before and
    after each stage. *)
Lemma startswith_space_head (w s : list N) (c : N) :
  w <> [] -> forallb non_space w = true -> isspace c = true ->
  startswith w (c :: s) = false.
Proof.
  intros Hne Hw Hc. destruct w as [|a w]; [contradiction|]. simpl in *.
  apply andb_true_iff in Hw as [Ha _]. unfold non_space in Ha.
  destruct (char_eqb a c) eqn:E; [|reflexivity].
  apply char_eqb_eq in E. subst a. rewrite Hc in Ha. discriminate.
Qed.

Lemma contains_space_head (w s : list N) (c : N) :
  w <> [] -> forallb non_space w = true -> isspace c = true ->
  contains w (c :: s) = contains w s.
Proof.
  intros Hne Hw Hc. simpl.
  rewrite (startswith_space_head w s c Hne Hw Hc). reflexivity.
Qed.

Lemma contains_all_space (w s : list N) :
  w <> [] -> forallb non_space w = true -> forallb isspace s = true ->
  contains w s = false.
Proof.
  intros Hne Hw. induction s as [|c s IH]; simpl.
  - intros _. destruct w; [contradiction | reflexivity].
  - rewrite andb_true_iff. intros [Hc Hs].
    rewrite (startswith_space_head w s c Hne Hw Hc). simpl.
    apply IH. exact Hs.
Qed.

Lemma startswith_re_sub (w s : list N) :
  forallb non_space w = true ->
  startswith w (re_sub_plus isspace [space] false s) = startswith w s.
Proof.
  revert s. induction w as [|a w IH]; intros s Hw; [reflexivity|].
  simpl in Hw. apply andb_true_iff in Hw as [Ha Hw]. unfold non_space in Ha.
  destruct s as [|c s]; [reflexivity|]. simpl.
  destruct (isspace c) eqn:Ec; simpl.
  - assert (char_eqb a space = false) as ->.
    { destruct (char_eqb a space) eqn:E; [|reflexivity].
      apply char_eqb_eq in E. subst a. discriminate. }
    assert (char_eqb a c = false) as ->.
    { destruct (char_eqb a c) eqn:E; [|reflexivity].
      apply char_eqb_eq in E. subst a. rewrite Ec in Ha. discriminate. }
    reflexivity.
  - rewrite (IH s Hw). reflexivity.
Qed.

Lemma contains_re_sub (in_match : bool) (w s : list N) :
  w <> [] -> forallb non_space w = true ->
  contains w (re_sub_plus isspace [space] in_match s) = contains w s.
Proof.
  intros Hne Hw. revert in_match.
  induction s as [|c s IH]; intros in_match; [reflexivity|].
  cbn [re_sub_plus]. destruct (isspace c) eqn:Ec.
  - rewrite (contains_space_head w s c Hne Hw Ec).
    destruct in_match; cbn [app].
    + apply IH.
    + rewrite (contains_space_head w _ space Hne Hw eq_refl). apply IH.
  - pose proof (startswith_re_sub w (c :: s) Hw) as Hsw.
    cbn [re_sub_plus] in Hsw. rewrite Ec in Hsw.
    cbn [contains]. rewrite Hsw, IH. reflexivity.
Qed.

Lemma contains_lstrip (w s : list N) :
  w <> [] -> forallb non_space w = true ->
  contains w (lstrip s) = contains w s.
Proof.
  intros Hne Hw. induction s as [|c s IH]; [reflexivity|].
  cbn [lstrip]. destruct (isspace c) eqn:Ec; [|reflexivity].
  rewrite (contains_space_head w s c Hne Hw Ec). exact IH.
Qed.

Lemma startswith_rstrip (w s : list N) :
  forallb non_space w = true ->
  startswith w (rstrip s) = startswith w s.
Proof.
  revert s. induction w as [|a w IH]; intros s Hw; [reflexivity|].
  pose proof Hw as Hw0.
  simpl in Hw. apply andb_true_iff in Hw as [Ha Hw].
  destruct s as [|c s]; [reflexivity|].
  destruct (rstrip_cons c s) as [E|E]; rewrite E.
  - apply rstrip_nil_all_space in E. simpl in E.
    apply andb_true_iff in E as [Ec _].
    symmetry. apply startswith_space_head; [discriminate | exact Hw0 | exact Ec].
  - simpl. rewrite (IH s Hw). reflexivity.
Qed.

Lemma contains_rstrip (w s : list N) :
  w <> [] -> forallb non_space w = true ->
  contains w (rstrip s) = contains w s.
Proof.
  intros Hne Hw. induction s as [|c s IH]; [reflexivity|].
  destruct (rstrip_cons c s) as [E|E].
  - rewrite E. apply rstrip_nil_all_space in E.
    rewrite (contains_all_space w (c :: s) Hne Hw E).
    destruct w; [contradiction | reflexivity].
  - change (contains w (c :: s)) with
      (startswith w (c :: s) || contains w s).
    rewrite <- (startswith_rstrip w (c :: s) Hw), <- IH, E. reflexivity.
Qed.

Lemma contains_clean_text (w s : list N) :
  w <> [] -> forallb non_space w = true ->
  contains w (clean_text s) = contains w s.
Proof.
  intros Hne Hw. unfold clean_text, strip, re_sub_spaces.
  rewrite contains_rstrip, contains_lstrip by assumption.
  apply contains_re_sub; assumption.
Qed.

(** X1.  Whatever [clean_text] returns, a whitespace character in it is
    always U+0020 and always stands between two characters that are not
    whitespace. *)
Theorem clean_text_whitespace_shape (s pre post : list N) (c : N) :
  clean_text s = pre ++ c :: post ->
  isspace c = true ->
  c = space /\
  (exists a pre', pre = pre' ++ [a] /\ isspace a = false) /\
  (exists b post', post = b :: post' /\ isspace b = false).
Proof.
  intros E Hc. pose proof (clean_text_is_clean s) as H. rewrite E in H.
  unfold is_clean in H. rewrite !andb_true_iff in H.
  destruct H as [[Hh Hl] Hs].
  destruct (single_spaced_after c post (single_spaced_app pre _ Hs) Hc)
    as [Hsp Hp].
  pose proof (single_spaced_before pre post c Hs Hc) as Hb.
  split; [exact Hsp|]. split.
  - destruct pre as [|x pre0] using rev_ind.
    + simpl in Hh. rewrite Hc in Hh. discriminate.
    + exists x, pre0. split; [reflexivity|].
      rewrite last_snoc in Hb. simpl in Hb.
      apply negb_true_iff in Hb. exact Hb.
  - destruct post as [|b post'].
    + rewrite last_snoc in Hl. simpl in Hl. rewrite Hc in Hl. discriminate.
    + exists b, post'. split; [reflexivity|].
      simpl in Hp. apply negb_true_iff in Hp. exact Hp.
Qed.

Lemma clean_text_whitespace_shape_witness :
  clean_text [9; 49; 48; 10; 160; 36; 32]%N = lit "10" ++ space :: lit "$" /\
  (exists a pre', lit "10" = pre' ++ [a] /\ isspace a = false) /\
  (exists b post', lit "$" = b :: post' /\ isspace b = false).
Proof.
  split; [reflexivity|].
  exact (proj2 (clean_text_whitespace_shape
                  [9; 49; 48; 10; 160; 36; 32]%N (lit "10") (lit "$") space
                  eq_refl eq_refl)).
Defined.

(** X2.  [clean_text] neither drops, adds nor reorders characters that
    are not whitespace, and never makes the string longer. *)
Theorem clean_text_keeps_content (s : list N) :
  List.filter non_space (clean_text s) = List.filter non_space s /\
  (length (clean_text s) <= length s)%nat.
Proof.
  split; [apply clean_text_keeps_non_space|].
  unfold clean_text, strip, re_sub_spaces.
  pose proof (re_sub_length false s) as H1.
  pose proof (lstrip_length (re_sub_plus isspace [space] false s)) as H2.
  pose proof (rstrip_length
                (lstrip (re_sub_plus isspace [space] false s))) as H3.
  lia.
Qed.

(** X3.  [clean_text] returns the empty string exactly for the strings
    made of whitespace only (the empty string among them). *)
Theorem clean_text_empty_iff_blank (s : list N) :
  clean_text s = [] <-> forallb isspace s = true.
Proof.
  rewrite <- filter_non_space_nil, <- clean_text_keeps_non_space. split.
  - intros ->. reflexivity.
  - intros H. pose proof (clean_text_is_clean s) as Hc.
    destruct (clean_text s) as [|c t]; [reflexivity|].
    unfold is_clean in Hc. simpl in Hc, H. unfold non_space in H at 1.
    destruct (isspace c); [discriminate Hc | discriminate H].
Qed.

(** X4.  A text without whitespace, such as "(RU)", occurs in the cleaned
    string exactly when it occurs in the original one. *)
Theorem clean_text_keeps_occurrences (w s : list N) :
  w <> [] ->
  forallb non_space w = true ->
  (substring w (clean_text s) <-> substring w s).
Proof.
  intros Hne Hw. rewrite <- !contains_spec.
  rewrite (contains_clean_text w s Hne Hw). reflexivity.
Qed.

Lemma clean_text_keeps_occurrences_witness :
  substring (lit "(RU)") (clean_text (lit "  Server   (RU) ")) <->
  substring (lit "(RU)") (lit "  Server   (RU) ").
Proof.
  apply (clean_text_keeps_occurrences (lit "(RU)") (lit "  Server   (RU) ")).
  - discriminate.
  - reflexivity.
Defined.

(* ===================================================================== *)
(** ** Further properties of [lots_links] *)
(* ===================================================================== *)




Lemma take_le_split {A} (n n' : nat) (l : list A) :
  (n <= n')%nat -> take n' l = take n l ++ drop n (take n' l).
Proof.
  intros H. rewrite <- (firstn_skipn n (take n' l)) at 1.
  rewrite firstn_firstn. replace (Nat.min n n') with n by lia.
  reflexivity.
Qed.

Lemma filter_app_bool {A} (p : A -> bool) (l k : list A) :
  List.filter p (l ++ k) = List.filter p l ++ List.filter p k.
Proof.
  induction l as [|a l IH]; simpl; [reflexivity|].
  destruct (p a); simpl; rewrite IH; reflexivity.
Qed.

Lemma Unknown_is_clean : is_clean Unknown = true.
Proof. reflexivity. Qed.

Lemma record_fields_clean (lot : node) :
  is_clean (info (make_record lot)) = true /\
  is_clean (cost (make_record lot)) = true /\
  is_clean (server (make_record lot)) = true.
Proof.
  cbn [info cost server make_record].
  unfold lot_info, lot_cost, lot_server.
  repeat split.
  - destruct (find lot (lit "div") (lit "tc-desc-text"));
      [apply clean_text_is_clean | apply Unknown_is_clean].
  - destruct (find lot (lit "div") (lit "tc-price"));
      [apply clean_text_is_clean | apply Unknown_is_clean].
  - destruct (find lot (lit "div") (lit "tc-server hidden-xs"));
      [apply clean_text_is_clean | apply Unknown_is_clean].
Qed.

(** X5.  Raising a non-negative limit only appends: the result for a
    limit [m] is a prefix of the result for any larger limit. *)
Theorem lots_links_limit_monotone
    (BS : option (list N) -> result node) (self : Lots) (m m' : Z) :
  0 <= m -> m <= m' ->
  exists short long,
    outcome (lots_links BS self m) = inr short /\
    outcome (lots_links BS self m') = inr long /\
    short `prefix_of` long.
Proof.
  intros H0 Hle. eexists. eexists.
  split; [apply lots_links_returns|]. split; [apply lots_links_returns|].
  unfold candidates. rewrite !slice_to_nonneg by lia.
  rewrite (take_le_split (Z.to_nat m) (Z.to_nat m')) by lia.
  rewrite filter_app_bool, map_app. eexists. reflexivity.
Qed.

Lemma lots_links_limit_monotone_witness :
  exists short long,
    outcome (lots_links (parse_as five_page) fetched 2) = inr short /\
    outcome (lots_links (parse_as five_page) fetched 4) = inr long /\
    short `prefix_of` long.
Proof.
  apply (lots_links_limit_monotone (parse_as five_page) fetched 2 4); lia.
Defined.

(** X6.  A limit at least as large as the number of [tc-item] links has
    no effect: every link is visited.  A limit of minus that number or
    below visits none. *)
Theorem lots_links_limit_beyond_page
    (BS : option (list N) -> result node) (self : Lots) (m : Z) :
  (Z.of_nat (length (all_candidates BS self)) <= m ->
   outcome (lots_links BS self m) =
     inr (List.map make_record
            (List.filter keeps (all_candidates BS self)))) /\
  (m <= - Z.of_nat (length (all_candidates BS self)) ->
   outcome (lots_links BS self m) = inr []).
Proof.
  split; intros H; rewrite lots_links_returns; unfold candidates.
  - rewrite slice_to_nonneg by lia.
    rewrite firstn_all2 by lia. reflexivity.
  - unfold slice_to. destruct (0 <=? m) eqn:E.
    + apply Z.leb_le in E. replace (Z.to_nat m) with 0%nat by lia.
      reflexivity.
    + replace (Z.to_nat _) with 0%nat by lia. reflexivity.
Qed.

Lemma lots_links_limit_beyond_page_witness :
  outcome (lots_links (parse_as five_page) fetched 20) =
    inr (List.map make_record
           (List.filter keeps (all_candidates (parse_as five_page) fetched))) /\
  outcome (lots_links (parse_as five_page) fetched (-5)) = inr [].
Proof.
  split.
  - apply (proj1 (lots_links_limit_beyond_page
                    (parse_as five_page) fetched 20)).
    vm_compute. discriminate.
  - apply (proj2 (lots_links_limit_beyond_page
                    (parse_as five_page) fetched (-5))).
    vm_compute. discriminate.
Defined.



(** X8.  In every record that [lots_links] returns, [info], [cost] and
    [server] are clean: no whitespace at either end and no whitespace
    character other than single U+0020. *)
Theorem lots_links_fields_are_clean
    (BS : option (list N) -> result node) (self : Lots) (m : Z)
    (records : list lot_record) (r : lot_record) :
  outcome (lots_links BS self m) = inr records ->
  In r records ->
  is_clean (info r) = true /\ is_clean (cost r) = true /\
  is_clean (server r) = true.
Proof.
  intros Ho Hin. rewrite lots_links_returns in Ho.
  injection Ho as <-.
  apply in_map_iff in Hin as (lot & <- & _).
  apply record_fields_clean.
Qed.

Lemma lots_links_fields_are_clean_witness :
  is_clean (lit "gold") = true /\ is_clean (lit "10 $") = true /\
  is_clean (lit "EU") = true.
Proof.
  apply (lots_links_fields_are_clean (parse_as example_page) fetched 10
           [ {| href := AttrStr (lit "/lots/offer?id=1");
                info := lit "gold"; cost := lit "10 $";
                server := lit "EU" |} ]
           {| href := AttrStr (lit "/lots/offer?id=1");
              info := lit "gold"; cost := lit "10 $";
              server := lit "EU" |}).
  - vm_compute. reflexivity.
  - left. reflexivity.
Defined.

(** X9.  An element that is present but holds only whitespace gives the
    empty string, not "Unknown": the placeholder is for absent elements
    only. *)
Theorem blank_element_gives_empty_field (lot el : node) :
  forallb isspace (text el) = true ->
  (find lot (lit "div") (lit "tc-desc-text") = Some el ->
   info (make_record lot) = []) /\
  (find lot (lit "div") (lit "tc-price") = Some el ->
   cost (make_record lot) = []) /\
  (find lot (lit "div") (lit "tc-server hidden-xs") = Some el ->
   server (make_record lot) = []).
Proof.
  intros Hb.
  assert (Hc : clean_text (text el) = []).
  { pose proof (clean_text_keeps_non_space (text el)) as Hk.
    apply filter_non_space_nil in Hb. rewrite Hb in Hk.
    pose proof (clean_text_is_clean (text el)) as Hcl.
    destruct (clean_text (text el)) as [|c t]; [reflexivity|].
    unfold is_clean in Hcl. simpl in Hcl, Hk. unfold non_space in Hk at 1.
    destruct (isspace c); [discriminate Hcl | discriminate Hk]. }
  cbn [info cost server make_record].
  unfold lot_info, lot_cost, lot_server.
  repeat split; intros ->; exact Hc.
Qed.

Lemma blank_element_gives_empty_field_witness :
  cost (make_record blank_price_item) = [].
Proof.
  apply (proj1 (proj2 (blank_element_gives_empty_field blank_price_item
                         (text_div ["tc-price"%string] "  ") eq_refl))).
  vm_compute. reflexivity.
Defined.

(** X10.  The filter of [lots_links] keeps a link exactly when it has no
    [<div>] of class [sc-offer-icons] below it and "(RU)" does not occur
    in the raw, uncleaned text of its region element, if it has one. *)
Theorem filter_decided_on_raw_text (lot : node) :
  keeps lot = true <->
  ~ pinned lot /\
  (forall raw, raw_server lot = Some raw -> ~ substring (lit "(RU)") raw).
Proof.
  rewrite keeps_true. destruct pin_marker_name as [Hsp Hne].
  unfold check_for_pin_element, pinned.
  rewrite (find_div_None lot _ Hsp Hne).
  unfold lot_server, raw_server.
  destruct (find lot (lit "div") (lit "tc-server hidden-xs")) as [el|].
  - rewrite <- !contains_spec.
    rewrite (contains_clean_text (lit "(RU)") (text el))
      by (discriminate || reflexivity).
    split.
    + intros [Hr Hp]. split; [exact Hp|]. intros raw [= <-].
      rewrite <- contains_spec. exact Hr.
    + intros [Hp Hr]. split; [|exact Hp].
      rewrite contains_spec. apply Hr. reflexivity.
  - split.
    + intros [_ Hp]. split; [exact Hp | discriminate].
    + intros [Hp _]. split; [|exact Hp].
      rewrite <- contains_spec. vm_compute. discriminate.
Qed.

Section SorterOutput.

Variable BS : option (list N) -> result node.
Variable F : Type.
Variable float : list N -> result F.
Variable float_lt : F -> F -> bool.
Variable K : Type.
Context `{EqDecision K}.

(** X11.  Whatever the token, [sort_lots] first runs [lots_links] with
    the default limit 20, so it prints what that call prints, and then
    raises: it never returns a value. *)
Theorem sort_lots_extracts_then_raises (self : Lots) (sort_by : list N) :
  printed (sort_lots BS F float float_lt K self sort_by) =
    printed (lots_links BS self 20) /\
  exists e, outcome (sort_lots BS F float float_lt K self sort_by) = inl e.
Proof.
  unfold sort_lots.
  pose proof (lots_links_returns BS self 20) as Hl.
  destruct (lots_links BS self 20) as [out [e|l]];
    unfold outcome in Hl; simpl in Hl; [discriminate|].
  unfold bind, printed, outcome.
  destruct (str_eqb sort_by (lit "lowest")); simpl.
  - rewrite app_nil_r. split; [reflexivity | eexists; reflexivity].
  - destruct (str_eqb sort_by (lit "highest")); simpl;
      rewrite app_nil_r; (split; [reflexivity | eexists; reflexivity]).
Qed.

End SorterOutput.

(* ===================================================================== *)
(** ** Further properties of the constructor and the fetch *)
(* ===================================================================== *)

Lemma lit_inj (a b : string) : lit a = lit b -> a = b.
Proof.
  unfold lit. intros H.
  rewrite <- (string_of_list_ascii_of_string a),
          <- (string_of_list_ascii_of_string b).
  f_equal. revert H.
  generalize (list_ascii_of_string a) (list_ascii_of_string b).
  intros l. induction l as [|x l IH]; intros [|y k]; simpl; try easy.
  intros [= Hxy Hlk]. f_equal; [|apply IH; exact Hlk].
  rewrite <- (ascii_N_embedding x), <- (ascii_N_embedding y), Hxy.
  reflexivity.
Qed.

Lemma to_int_proper (z : Z) :
  Z.to_int z <> Decimal.Pos Decimal.Nil /\
  Z.to_int z <> Decimal.Neg Decimal.Nil.
Proof.
  destruct z as [|p|p]; simpl.
  - split; discriminate.
  - split; [|discriminate]. intros [= H].
    exact (DecimalPos.Unsigned.to_uint_nonnil p H).
  - split; [discriminate|]. intros [= H].
    exact (DecimalPos.Unsigned.to_uint_nonnil p H).
Qed.

(** [str] of an [int] determines the [int]. *)
Lemma str_of_int_inj (a b : Z) : str_of_int a = str_of_int b -> a = b.
Proof.
  unfold str_of_int. intros H. apply lit_inj in H.
  destruct (to_int_proper a) as [Ha1 Ha2].
  destruct (to_int_proper b) as [Hb1 Hb2].
  pose proof (NilZero.isi (Z.to_int a) Ha1 Ha2) as Ia.
  pose proof (NilZero.isi (Z.to_int b) Hb1 Hb2) as Ib.
  rewrite H in Ia. rewrite Ia in Ib. injection Ib as Hab.
  rewrite <- (DecimalZ.of_to a), <- (DecimalZ.of_to b), Hab. reflexivity.
Qed.

(** X12.  The page is fetched once: after a call of [__get_data__] that
    returned a body, the body is stored, and any later call returns the
    same body and leaves the object as it is, whatever the network would
    answer. *)
Theorem get_data_fetches_once
    (rg rg' : list N -> result response) (self self' : Lots)
    (body : list N) :
  __get_data__ rg self = (self', inr body) ->
  data self' = Some body /\
  __get_data__ rg' self' = (self', inr body).
Proof.
  unfold __get_data__ at 1. intros H.
  assert (Hd : data self' = Some body).
  { destruct (data self) as [d|] eqn:Ed.
    - injection H as <- <-. exact Ed.
    - destruct (rg (url self)) as [e|resp]; [discriminate|].
      destruct (status_code resp =? 200); [|discriminate].
      injection H as <- <-. reflexivity. }
  split; [exact Hd|]. unfold __get_data__. rewrite Hd. reflexivity.
Qed.

Lemma get_data_fetches_once_witness :
  data {| id := lit "1"; url := lit "https://funpay.com/en/lots/1/";
          data := Some (lit "<html>") |} = Some (lit "<html>") /\
  __get_data__ (answer 404 "gone")
    {| id := lit "1"; url := lit "https://funpay.com/en/lots/1/";
       data := Some (lit "<html>") |} =
    ({| id := lit "1"; url := lit "https://funpay.com/en/lots/1/";
        data := Some (lit "<html>") |}, inr (lit "<html>")).
Proof.
  apply (get_data_fetches_once (answer 200 "<html>") (answer 404 "gone")
           unfetched).
  reflexivity.
Defined.

(** X13.  A call of [__get_data__] that raises leaves the object exactly
    as it was, with no page stored; a later call asks the server again
    and stores the page if the answer then has status 200. *)
Theorem failed_fetch_leaves_object_unchanged
    (rg : list N -> result response) (self : Lots) (e : exn) :
  snd (__get_data__ rg self) = inl e ->
  fst (__get_data__ rg self) = self /\
  data self = None /\
  forall (rg' : list N -> result response) (resp : response),
    rg' (url self) = inr resp -> status_code resp = 200 ->
    __get_data__ rg' (fst (__get_data__ rg self)) =
      ({| id := id self; url := url self;
          data := Some (response_text resp) |},
       inr (response_text resp)).
Proof.
  intros H.
  assert (Hd : data self = None).
  { unfold __get_data__ in H. destruct (data self); [discriminate|].
    reflexivity. }
  assert (Hf : fst (__get_data__ rg self) = self).
  { unfold __get_data__ in *. rewrite Hd in *.
    destruct (rg (url self)) as [e'|resp]; [reflexivity|].
    destruct (status_code resp =? 200); [discriminate | reflexivity]. }
  split; [exact Hf|]. split; [exact Hd|].
  intros rg' resp Hr Hs. rewrite Hf. unfold __get_data__.
  rewrite Hd, Hr. apply Z.eqb_eq in Hs. rewrite Hs. reflexivity.
Qed.

Lemma failed_fetch_leaves_object_unchanged_witness :
  fst (__get_data__ (answer 503 "busy") unfetched) = unfetched /\
  __get_data__ (answer 200 "<html>")
    (fst (__get_data__ (answer 503 "busy") unfetched)) =
    ({| id := lit "1"; url := lit "https://funpay.com/en/lots/1/";
        data := Some (lit "<html>") |}, inr (lit "<html>")).
Proof.
  destruct (failed_fetch_leaves_object_unchanged (answer 503 "busy")
              unfetched
              (Raise Exception
                 (lit "Error getting data for ID: 1. Status code: 503"))
              eq_refl) as (H1 & _ & H2).
  split; [exact H1|].
  exact (H2 (answer 200 "<html>")
            {| status_code := 200; response_text := lit "<html>" |}
            eq_refl eq_refl).
Defined.

(** X14.  [__init__] succeeds exactly when [str] converts the identifier
    and the server answers the request for [lots_url ID] with status
    200; the object then holds the body of that answer. *)
Theorem init_succeeds_iff_status_200
    (rg : list N -> result response) (max_digits ID : Z) :
  (forall resp,
     int_str_too_long max_digits ID = false ->
     rg (lots_url ID) = inr resp -> status_code resp = 200 ->
     __init__ rg max_digits ID =
       (Some {| id := str_of_int ID; url := lots_url ID;
                data := Some (response_text resp) |}, inr tt)) /\
  (snd (__init__ rg max_digits ID) = inr tt ->
   int_str_too_long max_digits ID = false /\
   exists resp,
     rg (lots_url ID) = inr resp /\ status_code resp = 200 /\
     fst (__init__ rg max_digits ID) =
       Some {| id := str_of_int ID; url := lots_url ID;
               data := Some (response_text resp) |}).
Proof.
  rewrite init_unfold. unfold builtin_str, __get_data__. cbn [data url id].
  split.
  - intros resp Hl Hr Hs. rewrite Hl, Hr. apply Z.eqb_eq in Hs. rewrite Hs.
    reflexivity.
  - destruct (int_str_too_long max_digits ID); [discriminate|].
    destruct (rg (lots_url ID)) as [e|resp] eqn:Er; [discriminate|].
    destruct (status_code resp =? 200) eqn:Es; [|discriminate].
    intros _. split; [reflexivity|]. exists resp.
    apply Z.eqb_eq in Es. auto.
Qed.

Lemma init_succeeds_iff_status_200_witness :
  __init__ (answer 200 "<html>") 4300 1234 =
    (Some {| id := lit "1234"; url := lit "https://funpay.com/en/lots/1234/";
             data := Some (lit "<html>") |}, inr tt).
Proof.
  exact (proj1 (init_succeeds_iff_status_200 (answer 200 "<html>") 4300 1234)
           {| status_code := 200; response_text := lit "<html>" |}
           eq_refl eq_refl eq_refl).
Defined.

(** X15.  When [str] converts the identifier, an exception raised by
    [requests.get] leaves [__init__] unchanged, with its class and
    message, and the object holds no page. *)
Theorem transport_errors_propagate
    (rg : list N -> result response) (max_digits ID : Z) (e : exn) :
  int_str_too_long max_digits ID = false ->
  rg (lots_url ID) = inl e ->
  __init__ rg max_digits ID =
    (Some {| id := str_of_int ID; url := lots_url ID; data := None |},
     inl e).
Proof.
  intros Hl H. rewrite init_unfold. unfold builtin_str, __get_data__.
  cbn [data url id]. rewrite Hl, H. reflexivity.
Qed.

Lemma transport_errors_propagate_witness :
  __init__ (fun _ => inl (Raise (LibraryError (lit "ConnectionError"))
                            (lit "refused"))) 4300 7 =
    (Some {| id := lit "7"; url := lit "https://funpay.com/en/lots/7/";
             data := None |},
     inl (Raise (LibraryError (lit "ConnectionError")) (lit "refused"))).
Proof.
  exact (transport_errors_propagate
           (fun _ => inl (Raise (LibraryError (lit "ConnectionError"))
                            (lit "refused"))) 4300 7
           (Raise (LibraryError (lit "ConnectionError")) (lit "refused"))
           eq_refl eq_refl).
Defined.

(** X16.  Two objects that [__init__] built for different identifiers
    have different addresses. *)
Theorem distinct_ids_distinct_urls
    (rg rg' : list N -> result response) (max_digits max_digits' a b : Z)
    (self_a self_b : Lots) :
  fst (__init__ rg max_digits a) = Some self_a ->
  fst (__init__ rg' max_digits' b) = Some self_b ->
  a <> b ->
  url self_a <> url self_b.
Proof.
  intros Ha Hb Hab.
  apply init_Some_inv in Ha as (_ & _ & ->).
  apply init_Some_inv in Hb as (_ & _ & ->).
  unfold lots_url. intros H.
  apply app_inv_head in H. apply app_inv_tail in H.
  apply Hab, str_of_int_inj. exact H.
Qed.

Lemma distinct_ids_distinct_urls_witness :
  lit "https://funpay.com/en/lots/12/" <> lit "https://funpay.com/en/lots/120/".
Proof.
  apply (distinct_ids_distinct_urls (answer 200 "a") (answer 404 "b")
           4300 0 12 120
           {| id := lit "12"; url := lit "https://funpay.com/en/lots/12/";
              data := Some (lit "a") |}
           {| id := lit "120"; url := lit "https://funpay.com/en/lots/120/";
              data := None |}).
  - reflexivity.
  - reflexivity.
  - discriminate.
Defined.
